(** * pybot: a shallow embedding of [pybot/pybot.py]

    The development follows the Python module class by class: the event
    bus, messages, adapters, responses, the robot, listeners and the two
    matchers.  Python objects become records, methods become functions
    that take [self] first, a method that mutates [self] returns the new
    [self], and code that can raise returns a [result]. *)

From stdpp Require Import gmap strings list fin_maps.
From Stdlib Require Import Ascii String.

Local Open Scope stdpp_scope.

(** ** Python values the module handles *)

(** Exceptions the embedded code can meet.  [ValueError] is what
    [list.remove] raises for a missing element (the specification calls it
    SubscriptionNotFoundError); [AttributeError] comes from [None.name];
    [ReError] is [re.error]; [Exception] stands for whatever a user
    function raises. *)
Inductive exn :=
| ValueError
| AttributeError
| ReError
| Exception (msg : string).

Inductive result (A : Type) :=
| Ok (a : A)
| Raise (e : exn).
Arguments Ok {A} a.
Arguments Raise {A} e.

Global Instance exn_eq_dec : EqDecision exn.
Proof. solve_decision. Defined.

(** ** [str] methods used by the matchers

    Strings are byte strings; [lower] is the ASCII one. *)
Module Str.

Definition is_upper (c : ascii) : bool :=
  (65 <=? nat_of_ascii c) && (nat_of_ascii c <=? 90).

Definition lower_char (c : ascii) : ascii :=
  if is_upper c then ascii_of_nat (nat_of_ascii c + 32) else c.

(** [s.lower()] *)
Fixpoint lower (s : string) : string :=
  match s with
  | EmptyString => EmptyString
  | String c s' => String (lower_char c) (lower s')
  end.

(** [c in chars] for a one-character [c] *)
Fixpoint mem (c : ascii) (chars : string) : bool :=
  match chars with
  | EmptyString => false
  | String d chars' => if decide (c = d) then true else mem c chars'
  end.

Definition is_empty (s : string) : bool :=
  match s with EmptyString => true | String _ _ => false end.

(** [s.split(sep)] for a one-character separator: every occurrence of
    [sep] ends a token, so consecutive separators give empty tokens and
    the result is never the empty list. *)
Fixpoint split (sep : ascii) (s : string) : list string :=
  match s with
  | EmptyString => [EmptyString]
  | String c s' =>
      if decide (c = sep) then EmptyString :: split sep s'
      else match split sep s' with
           | tok :: toks => String c tok :: toks
           | [] => [String c EmptyString]
           end
  end.

(** [s.lstrip(chars)] *)
Fixpoint lstrip (chars : string) (s : string) : string :=
  match s with
  | EmptyString => EmptyString
  | String c s' => if mem c chars then lstrip chars s' else s
  end.

(** [s.rstrip(chars)] *)
Fixpoint rstrip (chars : string) (s : string) : string :=
  match s with
  | EmptyString => EmptyString
  | String c s' =>
      let r := rstrip chars s' in
      if is_empty r && mem c chars then EmptyString else String c r
  end.

(** [sub in s] *)
Fixpoint startswith (sub s : string) : bool :=
  match sub, s with
  | EmptyString, _ => true
  | String a sub', String b s' => if decide (a = b) then startswith sub' s' else false
  | String _ _, EmptyString => false
  end.

Fixpoint contains (sub s : string) : bool :=
  startswith sub s ||
  match s with
  | EmptyString => false
  | String _ s' => contains sub s'
  end.

(** The part of [s] before its first [sep]: the first token of
    [split]. *)
Fixpoint before (sep : ascii) (s : string) : string :=
  match s with
  | EmptyString => EmptyString
  | String c s' => if decide (c = sep) then EmptyString else String c (before sep s')
  end.

(** ['{}: {}'.format(a, b)] *)
Definition format_colon (a b : string) : string := a +:+ ": " +:+ b.

Definition tab : ascii := ascii_of_nat 9.
Definition newline : ascii := ascii_of_nat 10.

End Str.

(** ** The [re] library: a model of [re.compile] and [Pattern.search]

    [re] is not part of the repository.  The model is a backtracking
    matcher with Python's priorities (alternatives left to right, greedy
    repetition) over the fragment: literal characters, [.], [^], [$],
    [*], [+], [?], [|], groups and backslash-escaped punctuation.  For a
    pattern outside this fragment [compile] answers [None], as it does for
    a pattern [re] rejects. *)
Module Re.

Inductive regex :=
| Eps
| Chr (c : ascii)
| Dot
| Bol
| Eol
| Cat (r1 r2 : regex)
| Alt (r1 r2 : regex)
| Star (r : regex)
| Group (n : nat) (r : regex).

(** A match object: the span of the whole match and of each group that
    took part, most recent first. *)
Record match_obj := MatchObj {
  m_start : nat;
  m_end : nat;
  m_groups : list (nat * (nat * nat))
}.

Definition caps := list (nat * (nat * nat)).

(** [run r s pos cs k]: match [r] at the front of [s], which starts at
    offset [pos] of the subject, then hand what is left to [k]. *)
Fixpoint run (r : regex) (s : string) (pos : nat) (cs : caps)
    (k : string -> nat -> caps -> option (nat * caps)) {struct r}
    : option (nat * caps) :=
  match r with
  | Eps => k s pos cs
  | Chr c =>
      match s with
      | String d s' => if decide (c = d) then k s' (S pos) cs else None
      | EmptyString => None
      end
  | Dot =>
      match s with
      | String d s' => if decide (d = Str.newline) then None else k s' (S pos) cs
      | EmptyString => None
      end
  | Bol => if decide (pos = 0) then k s pos cs else None
  | Eol =>
      match s with
      | EmptyString => k s pos cs
      | String d EmptyString => if decide (d = Str.newline) then k s pos cs else None
      | _ => None
      end
  | Cat r1 r2 => run r1 s pos cs (fun s' pos' cs' => run r2 s' pos' cs' k)
  | Alt r1 r2 =>
      match run r1 s pos cs k with
      | Some m => Some m
      | None => run r2 s pos cs k
      end
  | Star r1 =>
      (fix loop (fuel : nat) (s : string) (pos : nat) (cs : caps) {struct fuel} :=
         match fuel with
         | 0 => k s pos cs
         | S fuel' =>
             match run r1 s pos cs
                     (fun s' pos' cs' =>
                        if decide (pos' = pos) then None else loop fuel' s' pos' cs') with
             | Some m => Some m
             | None => k s pos cs
             end
         end) (S (String.length s)) s pos cs
  | Group n r1 =>
      run r1 s pos cs (fun s' pos' cs' => k s' pos' ((n, (pos, pos')) :: cs'))
  end.

(** [match]: anchored at offset [pos]. *)
Definition match_at (r : regex) (s : string) (pos : nat) : option match_obj :=
  match run r s pos [] (fun _ pos' cs => Some (pos', cs)) with
  | Some (e, cs) => Some (MatchObj pos e cs)
  | None => None
  end.

(** [scan r s pos]: the first offset from [pos] on at which [r] matches. *)
Fixpoint scan (r : regex) (s : string) (pos : nat) : option match_obj :=
  match match_at r s pos with
  | Some m => Some m
  | None =>
      match s with
      | EmptyString => None
      | String _ s' => scan r s' (S pos)
      end
  end.

(** [regex.search(text)] *)
Definition search (r : regex) (text : string) : option match_obj := scan r text 0.

(** *** The pattern parser *)

Definition is_meta (c : ascii) : bool := Str.mem c ".^$*+?{}[]\|()".

Definition is_alnum (c : ascii) : bool :=
  let n := nat_of_ascii c in
  ((48 <=? n) && (n <=? 57)) || ((65 <=? n) && (n <=? 90)) || ((97 <=? n) && (n <=? 122)).

(** The postfix operator after an atom, if there is one. *)
Definition postfix (r : regex) (s : string) : regex * string :=
  match s with
  | String "*" s' => (Star r, s')
  | String "+" s' => (Cat r (Star r), s')
  | String "?" s' => (Alt r Eps, s')
  | _ => (r, s)
  end.

(** [alt fuel s g]: an alternation at the front of [s]; [g] is the next
    group number.  Returns the tree, the rest of the pattern and the
    next free group number. *)
Fixpoint alt (fuel : nat) (s : string) (g : nat) : option (regex * string * nat) :=
  match fuel with
  | 0 => None
  | S fuel' =>
      let atom (s : string) (g : nat) : option (regex * string * nat) :=
        match s with
        | String "(" s' =>
            match alt fuel' s' (S g) with
            | Some (r, String ")" s'', g') => Some (Group g r, s'', g')
            | _ => None
            end
        | String "." s' => Some (Dot, s', g)
        | String "^" s' => Some (Bol, s', g)
        | String "$" s' => Some (Eol, s', g)
        | String "\" (String c s') =>
            if is_alnum c then None else Some (Chr c, s', g)
        | String c s' => if is_meta c then None else Some (Chr c, s', g)
        | EmptyString => None
        end in
      let cat :=
        (fix cat (n : nat) (s : string) (g : nat) {struct n}
           : option (regex * string * nat) :=
           match n with
           | 0 => None
           | S n' =>
               match s with
               | EmptyString | String "|" _ | String ")" _ => Some (Eps, s, g)
               | _ =>
                   match atom s g with
                   | Some (a, s1, g1) =>
                       let '(a', s2) := postfix a s1 in
                       match cat n' s2 g1 with
                       | Some (Eps, s3, g3) => Some (a', s3, g3)
                       | Some (r, s3, g3) => Some (Cat a' r, s3, g3)
                       | None => None
                       end
                   | None => None
                   end
               end
           end) in
      match cat fuel' s g with
      | Some (r1, String "|" s1, g1) =>
          match alt fuel' s1 g1 with
          | Some (r2, s2, g2) => Some (Alt r1 r2, s2, g2)
          | None => None
          end
      | other => other
      end
  end.

(** [re.compile(pattern)] *)
Definition compile (pattern : string) : option regex :=
  match alt (S (S (String.length pattern))) pattern 1 with
  | Some (r, EmptyString, _) => Some r
  | _ => None
  end.

End Re.

(** ** Values a matcher can answer and an event can carry *)
Inductive pyval :=
| VNone
| VBool (b : bool)
| VStr (s : string)
| VMatch (m : Re.match_obj).

(** Python truth: [None], [False] and the empty string are false; a match
    object is always true. *)
Definition truthy (v : pyval) : bool :=
  match v with
  | VNone => false
  | VBool b => b
  | VStr s => negb (Str.is_empty s)
  | VMatch _ => true
  end.

(** [regex.search] answers a match object or [None]. *)
Definition of_search (o : option Re.match_obj) : pyval :=
  match o with
  | Some m => VMatch m
  | None => VNone
  end.

(** ** [User] and [Message] *)
Record User := mkUser { user_id : option nat; user_name : string }.

Module Message.
Record t := make {
  user : option User;
  room : string;
  text : option string;
  id : option nat
}.

(** [Message(user, room, text)], with [id=None] *)
Definition init (user : option User) (room : string) (text : option string) : t :=
  make user room text None.

(** [if message.text:] is false for [None] and for the empty string. *)
Definition text_truthy (message : t) : bool :=
  match text message with
  | None => false
  | Some s => negb (Str.is_empty s)
  end.
End Message.

(** ** Matchers

    [Matcher] is the base class ([match] is [pass]); [RegexMatcher] holds
    the compiled pattern; [DirectMessageMatcher] holds the wrapped matcher
    and the lower-cased name; [CustomMatcher n] is the [n]th matcher object
    a bot script passed to [listen], its [match] method given by the
    environment. *)
Inductive Matcher :=
| BaseMatcher
| RegexMatcher (regex : Re.regex)
| DirectMessageMatcher (wrapped : Matcher) (name : string)
| CustomMatcher (n : nat).

(** [RegexMatcher.__init__] *)
Definition RegexMatcher_init (pattern : string) : result Matcher :=
  match Re.compile pattern with
  | Some regex => Ok (RegexMatcher regex)
  | None => Raise ReError
  end.

(** [DirectMessageMatcher.__init__] *)
Definition DirectMessageMatcher_init (wrapped : Matcher) (name : string) : Matcher :=
  DirectMessageMatcher wrapped (Str.lower name).

(** [RegexMatcher.match] *)
Definition RegexMatcher_match (regex : Re.regex) (message : Message.t) : pyval :=
  match Message.text message with
  | Some text =>
      if negb (Str.is_empty text) then of_search (Re.search regex text)
      else VNone
  | None => VNone
  end.

(** [matcher.match(message)], dispatching on the matcher's class.
    [custom] is the [match] method of the script's own matchers. *)
Fixpoint Matcher_match (custom : nat -> Message.t -> result pyval)
    (self : Matcher) (message : Message.t) : result pyval :=
  match self with
  | BaseMatcher => Ok VNone
  | RegexMatcher regex => Ok (RegexMatcher_match regex message)
  | DirectMessageMatcher wrapped name =>
      match Message.text message with
      | None => Ok VNone
      | Some text =>
          if Str.is_empty text then Ok VNone
          else
            let tokens := Str.split " " (Str.lower text) in
            match tokens with
            | [] => Ok VNone
            | tok0 :: _ =>
                let first_token := Str.rstrip " :-=" (Str.lstrip " " tok0) in
                if decide (first_token = name)
                then Matcher_match custom wrapped message
                else Ok VNone
            end
      end
  | CustomMatcher n => custom n message
  end.

(** ** State and exceptions

    A computation takes the state, answers a value or raises, and leaves
    a state either way: what ran before an exception stays done. *)
Definition ST (S A : Type) : Type := S -> result A * S.

Definition ret {S A} (a : A) : ST S A := fun s => (Ok a, s).

Definition raise {S A} (e : exn) : ST S A := fun s => (Raise e, s).

Definition bind {S A B} (m : ST S A) (f : A -> ST S B) : ST S B :=
  fun s =>
    match m s with
    | (Ok a, s') => f a s'
    | (Raise e, s') => (Raise e, s')
    end.

(** [try: m except: h] with a bare [except], which catches everything. *)
Definition try_except {S A} (m : ST S A) (h : exn -> ST S A) : ST S A :=
  fun s =>
    match m s with
    | (Ok a, s') => (Ok a, s')
    | (Raise e, s') => h e s'
    end.

Notation "'let*' x := m 'in' k" := (bind m (fun x => k))
  (at level 10, x name, m at level 100, k at level 200).
Notation "m >> k" := (bind m (fun _ => k))
  (at level 100, k at level 200, right associativity).

(** [for x in xs: body(x)] *)
Fixpoint for_each {S A} (xs : list A) (body : A -> ST S unit) : ST S unit :=
  match xs with
  | [] => ret tt
  | x :: xs' => body x >> for_each xs' body
  end.

(** What the process shows: lines printed and tracebacks written. *)
Record World := mkWorld {
  stdout : list string;
  stderr : list exn
}.

Definition IO (A : Type) : Type := ST World A.

(** [print(text)] *)
Definition print (text : string) : IO unit :=
  fun w => (Ok tt, mkWorld (stdout w ++ [text]) (stderr w)).

(** ** [Response] and [Listener]

    There is one robot; the [robot] field of a response, a listener or an
    adapter refers to it, and the functions below take it as an argument
    where they follow that reference. *)
Module Response.
Record t := make {
  message : Message.t;
  match_ : pyval
}.
End Response.

(** A function object, known by its identity. *)
Definition Handler := nat.

(** What a function of the bot script is called with: the data of an
    event or the response of a dispatch. *)
Inductive Arg :=
| ArgData (data : pyval)
| ArgResponse (response : Response.t).

(** The bot script: what calling function object [f] does, and the
    [match] method of the matchers the script defines itself.  A function
    acts on the world and returns or raises; it does not register or
    remove listeners while a dispatch is running. *)
Record Script := mkScript {
  call : Handler -> Arg -> IO unit;
  custom_match : nat -> Message.t -> result pyval
}.

Module Listener.
Record t := make {
  matcher : Matcher;
  func : Handler
}.
End Listener.

(** The record of what was called, kept beside the world so that no
    function of the script can rewrite it. *)
Inductive Event :=
| Called (f : Handler) (arg : Arg)
| Tried (listener : Listener.t) (message : Message.t)
| Logged (e : exn).

Record Env := mkEnv {
  world : World;
  trace : list Event
}.

Definition M (A : Type) : Type := ST Env A.

Definition lift_io {A} (m : IO A) : M A :=
  fun env =>
    match m (world env) with
    | (r, w) => (r, mkEnv w (trace env))
    end.

Definition log (ev : Event) : M unit :=
  fun env => (Ok tt, mkEnv (world env) (trace env ++ [ev])).

(** [f(arg)] for a function object of the script *)
Definition invoke (py : Script) (f : Handler) (arg : Arg) : M unit :=
  log (Called f arg) >> lift_io (call py f arg).

(** [traceback.print_exc()] for the exception being handled *)
Definition print_exc (e : exn) : M unit :=
  log (Logged e) >>
  lift_io (fun w => (Ok tt, mkWorld (stdout w) (stderr w ++ [e]))).

(** ** [EventBus] *)
Module EventBus.

(** [_listeners] is a [defaultdict(list)]. *)
Record t := make { _listeners : gmap string (list Handler) }.

Definition init : t := make ∅.

(** [self._listeners[type]]: a missing key is first bound to a new
    empty list. *)
Definition getitem (self : t) (type : string) : t * list Handler :=
  match _listeners self !! type with
  | Some listeners => (self, listeners)
  | None => (make (<[type := []]> (_listeners self)), [])
  end.

(** The handlers registered for [type], without touching the dict. *)
Definition registered (self : t) (type : string) : list Handler :=
  default [] (_listeners self !! type).

(** [list.remove(f)]: drops the first element equal to [f]; [None]
    stands for the [ValueError] of a missing element. *)
Fixpoint list_remove (f : Handler) (l : list Handler) : option (list Handler) :=
  match l with
  | [] => None
  | g :: l' =>
      if decide (g = f) then Some l'
      else match list_remove f l' with
           | Some r => Some (g :: r)
           | None => None
           end
  end.

Definition publish (py : Script) (self : t) (type : string) (data : pyval)
    : t * M unit :=
  let '(self, listeners) := getitem self type in
  (self, for_each listeners (fun listener => invoke py listener (ArgData data))).

Definition subscribe (self : t) (type : string) (f : Handler) : t :=
  let '(self, listeners) := getitem self type in
  if decide (f ∈ listeners) then self
  else make (<[type := listeners ++ [f]]> (_listeners self)).

Definition unsubscribe (self : t) (type : string) (f : Handler) : result unit * t :=
  let '(self, listeners) := getitem self type in
  match list_remove f listeners with
  | Some listeners' => (Ok tt, make (<[type := listeners']> (_listeners self)))
  | None => (Raise ValueError, self)
  end.

End EventBus.

(** ** [Adapter] and [ShellAdapter]

    An adapter object is the table of its bound methods; a class is the
    table of its functions, each taking [self].  A subclass names the
    functions it overrides and takes the others from its base. *)
Module Adapter.

(** The transport loop ([run], [close], [receive]) reads the terminal and
    is left out; the five outbound methods are modelled. *)

Record obj := Obj {
  o_send : Message.t -> string -> IO unit;
  o_emote : Message.t -> string -> IO unit;
  o_reply : Message.t -> string -> IO unit;
  o_topic : Message.t -> string -> IO unit;
  o_play : Message.t -> string -> IO unit
}.

Record cls := Class {
  c_send : obj -> Message.t -> string -> IO unit;
  c_emote : obj -> Message.t -> string -> IO unit;
  c_reply : obj -> Message.t -> string -> IO unit;
  c_topic : obj -> Message.t -> string -> IO unit;
  c_play : obj -> Message.t -> string -> IO unit
}.

Definition send (self : obj) (message : Message.t) (text : string) : IO unit :=
  ret tt.

Definition emote (self : obj) (message : Message.t) (text : string) : IO unit :=
  o_send self message text.

Definition reply (self : obj) (message : Message.t) (text : string) : IO unit :=
  ret tt.

Definition topic (self : obj) (message : Message.t) (text : string) : IO unit :=
  ret tt.

Definition play (self : obj) (message : Message.t) (text : string) : IO unit :=
  ret tt.

Definition class : cls := Class send emote reply topic play.

(** Binding the functions of a class to an object. *)
Definition bound (c : cls) (self : obj) : obj :=
  Obj (c_send c self) (c_emote c self) (c_reply c self) (c_topic c self) (c_play c self).

Definition unbound : obj :=
  Obj (fun _ _ => ret tt) (fun _ _ => ret tt) (fun _ _ => ret tt)
      (fun _ _ => ret tt) (fun _ _ => ret tt).

(** The instance of a class: methods call [self.send] at most, and no
    [send] calls a method back, so three rounds of binding reach the
    object whose methods are its class's functions bound to itself
    ([new_bound] below, for the classes of this file). *)
Definition new (c : cls) : obj := bound c (bound c (bound c unbound)).

End Adapter.

Module ShellAdapter.

Definition send (self : Adapter.obj) (message : Message.t) (text : string) : IO unit :=
  print text.

Definition emote (self : Adapter.obj) (message : Message.t) (text : string) : IO unit :=
  Adapter.o_send self message ("* " +:+ text).

(** [message.user.name] raises when the message has no user. *)
Definition reply (self : Adapter.obj) (message : Message.t) (text : string) : IO unit :=
  match Message.user message with
  | Some user => Adapter.o_send self message (Str.format_colon (user_name user) text)
  | None => raise AttributeError
  end.

Definition class : Adapter.cls :=
  Adapter.Class send emote reply Adapter.topic Adapter.play.

End ShellAdapter.

(** ** [Listener.__call__] *)
Module ListenerCall.

(** [listener(message)]: the matcher is asked once; without a true
    match the function is not called. *)
Definition call (py : Script) (self : Listener.t) (message : Message.t) : M bool :=
  log (Tried self message) >>
  match Matcher_match (custom_match py) (Listener.matcher self) message with
  | Raise e => raise e
  | Ok match_ =>
      if negb (truthy match_) then ret false
      else
        let response := Response.make message match_ in
        invoke py (Listener.func self) (ArgResponse response) >>
        ret true
  end.

End ListenerCall.

(** ** [Robot] *)
Module Robot.

Record t := make {
  name : string;
  adapter : Adapter.obj;
  _listeners : list Listener.t;
  _bus : EventBus.t
}.

(** [Robot(name)]; the adapter is always the shell adapter. *)
Definition init (name : string) : t :=
  make name (Adapter.new ShellAdapter.class) [] EventBus.init.

Definition with_bus (self : t) (bus : EventBus.t) : t :=
  make (name self) (adapter self) (_listeners self) bus.

Definition send (self : t) (room : string) (text : string) : IO unit :=
  let fake_message := Message.init None room None in
  Adapter.o_send (adapter self) fake_message text.

Definition reply (self : t) (user : option User) (room : string) (text : string)
    : IO unit :=
  let fake_message := Message.init user room None in
  Adapter.o_reply (adapter self) fake_message text.

Definition _add_listener (self : t) (matcher : Matcher) (func : Handler) : t :=
  let listener := Listener.make matcher func in
  make (name self) (adapter self) (_listeners self ++ [listener]) (_bus self).

(** The registration methods answer a [wrapper]; each definition below
    is that wrapper applied to [f].  It answers the robot after the call
    and what the wrapper returns: [Some f] for [return f], [None] where
    the body ends without a [return]. *)
Definition on (self : t) (type : string) (f : Handler) : t * option Handler :=
  (with_bus self (EventBus.subscribe (_bus self) type f), Some f).

Definition emit (py : Script) (self : t) (type : string) (data : pyval) : t * M unit :=
  let '(bus, m) := EventBus.publish py (_bus self) type data in
  (with_bus self bus, m).

Definition receive (py : Script) (self : t) (message : Message.t) : M unit :=
  for_each (_listeners self)
    (fun listener =>
       try_except (ListenerCall.call py listener message >> ret tt)
                  (fun e => print_exc e)).

Definition respond (self : t) (pattern : string) (f : Handler)
    : result (t * option Handler) :=
  match RegexMatcher_init pattern with
  | Raise e => Raise e
  | Ok matcher =>
      let wrapper := DirectMessageMatcher_init matcher (name self) in
      Ok (_add_listener self wrapper f, None)
  end.

Definition hear (self : t) (pattern : string) (f : Handler)
    : result (t * option Handler) :=
  match RegexMatcher_init pattern with
  | Raise e => Raise e
  | Ok matcher => Ok (_add_listener self matcher f, Some f)
  end.

Definition listen (self : t) (matcher : Matcher) (f : Handler) : t * option Handler :=
  (_add_listener self matcher f, Some f).

End Robot.

(** ** [Response] methods: each forwards to the robot's adapter *)
Module ResponseOps.

Definition send (robot : Robot.t) (self : Response.t) (text : string) : IO unit :=
  Adapter.o_send (Robot.adapter robot) (Response.message self) text.

Definition emote (robot : Robot.t) (self : Response.t) (text : string) : IO unit :=
  Adapter.o_emote (Robot.adapter robot) (Response.message self) text.

Definition reply (robot : Robot.t) (self : Response.t) (text : string) : IO unit :=
  Adapter.o_reply (Robot.adapter robot) (Response.message self) text.

Definition topic (robot : Robot.t) (self : Response.t) (text : string) : IO unit :=
  Adapter.o_topic (Robot.adapter robot) (Response.message self) text.

End ResponseOps.

(** ** The guards of [DirectMessageMatcher.match]

    [address_check name message] is true when [match] reaches its last
    line, the call of the wrapped matcher. *)
Definition address_check (name : string) (message : Message.t) : bool :=
  match Message.text message with
  | None => false
  | Some text =>
      if Str.is_empty text then false
      else match Str.split " " (Str.lower text) with
           | [] => false
           | tok0 :: _ =>
               bool_decide (Str.rstrip " :-=" (Str.lstrip " " tok0) = name)
           end
  end.

(** The first token as the amended reading has it: the lower-cased text
    up to its first space character, without trailing [:], [-], [=]. *)
Definition first_token (text : string) : string :=
  Str.rstrip " :-=" (Str.before " " (Str.lower text)).

(** ** The specification's reading of the two matchers *)
Module Spec.

Definition vtab : ascii := ascii_of_nat 11.
Definition formfeed : ascii := ascii_of_nat 12.
Definition cr : ascii := ascii_of_nat 13.

(** White space, as [str.split()] and [\s] have it. *)
Definition is_space (c : ascii) : bool :=
  bool_decide (c ∈ [" "%char; Str.tab; Str.newline; vtab; formfeed; cr]).

Fixpoint take_token (s : string) : string :=
  match s with
  | EmptyString => EmptyString
  | String c s' => if is_space c then EmptyString else String c (take_token s')
  end.

(** The first whitespace-delimited token; [None] when the text has no
    token. *)
Fixpoint first_ws_token (s : string) : option string :=
  match s with
  | EmptyString => None
  | String c s' => if is_space c then first_ws_token s' else Some (take_token s)
  end.

(** The address check in the specification's words: the first
    whitespace-delimited token, leading spaces and trailing [:], [-],
    [=] and spaces stripped, equals the bot name, case ignored. *)
Definition addressed (botName : string) (text : option string) : bool :=
  match text with
  | None => false
  | Some text =>
      match first_ws_token text with
      | None => false
      | Some tok =>
          bool_decide (Str.rstrip " :-=" (Str.lstrip " " (Str.lower tok))
                       = Str.lower botName)
      end
  end.

(** [RegexMatcher.match] in the specification's words: [None] for an
    absent text, otherwise the search. *)
Definition regex_match (regex : Re.regex) (message : Message.t) : pyval :=
  match Message.text message with
  | None => VNone
  | Some text => of_search (Re.search regex text)
  end.

End Spec.

(** ** Sample data for the closed instances below *)
Module Sample.

Definition alice : User := mkUser (Some 1) "alice".

Definition msg (text : string) : Message.t :=
  Message.init (Some alice) "room" (Some text).

Definition no_text : Message.t := Message.init (Some alice) "room" None.

(** A script whose matcher [0] always answers [True], whose function
    [7] raises and whose other functions print the text of what they
    are given. *)
Definition script : Script :=
  mkScript
    (fun f arg =>
       if decide (f = 7) then raise (Exception "boom")
       else match arg with
            | ArgData _ => print "event"
            | ArgResponse r => print (default "" (Message.text (Response.message r)))
            end)
    (fun n _ => if decide (n = 0) then Ok (VBool true) else Ok VNone).

Definition w0 : World := mkWorld [] [].
Definition env0 : Env := mkEnv w0 [].

Definition tab_text : string := "pybot" +:+ String Str.tab "status".

(** [class Echo(Adapter)] overriding [send] alone. *)
Definition echo : Adapter.cls :=
  Adapter.Class ShellAdapter.send Adapter.emote Adapter.reply Adapter.topic Adapter.play.

End Sample.

(** The pattern "foo", compiled. *)
Definition foo_regex : Re.regex :=
  Re.Cat (Re.Chr "f") (Re.Cat (Re.Chr "o") (Re.Chr "o")).

(** [s[n:]] *)
Fixpoint drop_str (n : nat) (s : string) : string :=
  match n, s with
  | 0, _ => s
  | S n', String _ s' => drop_str n' s'
  | S _, EmptyString => EmptyString
  end.

(** ** Reading the record of calls *)

(** How often function [f] was called. *)
Fixpoint calls_to (f : Handler) (evs : list Event) : nat :=
  match evs with
  | [] => 0
  | Called g _ :: evs' => (if decide (g = f) then 1 else 0) + calls_to f evs'
  | _ :: evs' => calls_to f evs'
  end.

(** The listeners tried, in order. *)
Fixpoint tried_of (evs : list Event) : list Listener.t :=
  match evs with
  | [] => []
  | Tried l _ :: evs' => l :: tried_of evs'
  | _ :: evs' => tried_of evs'
  end.

(** The functions called, with what they were given, in order. *)
Fixpoint called_of (evs : list Event) : list (Handler * Arg) :=
  match evs with
  | [] => []
  | Called f arg :: evs' => (f, arg) :: called_of evs'
  | _ :: evs' => called_of evs'
  end.

(** The events of publishing [data] to the handlers [hs]. *)
Definition published (data : pyval) (hs : list Handler) : list Event :=
  map (fun h => Called h (ArgData data)) hs.

(** No handler is registered twice for one event type. *)
Definition bus_wf (self : EventBus.t) : Prop :=
  ∀ type, NoDup (EventBus.registered self type).


(** ** The course of a dispatch *)

(** What trying one listener on a message does, from world [w]: the
    events it leaves and the world after it. *)
Inductive dispatched (py : Script) (message : Message.t) (l : Listener.t)
    : World → list Event → World → Prop :=
| dispatched_no_match v w :
    Matcher_match (custom_match py) (Listener.matcher l) message = Ok v →
    truthy v = false →
    dispatched py message l w [Tried l message] w
| dispatched_matcher_raised e w :
    Matcher_match (custom_match py) (Listener.matcher l) message = Raise e →
    dispatched py message l w [Tried l message; Logged e]
      (mkWorld (stdout w) (stderr w ++ [e]))
| dispatched_returned v w w' :
    Matcher_match (custom_match py) (Listener.matcher l) message = Ok v →
    truthy v = true →
    call py (Listener.func l) (ArgResponse (Response.make message v)) w = (Ok tt, w') →
    dispatched py message l w
      [Tried l message;
       Called (Listener.func l) (ArgResponse (Response.make message v))] w'
| dispatched_raised v e w w' :
    Matcher_match (custom_match py) (Listener.matcher l) message = Ok v →
    truthy v = true →
    call py (Listener.func l) (ArgResponse (Response.make message v)) w = (Raise e, w') →
    dispatched py message l w
      [Tried l message;
       Called (Listener.func l) (ArgResponse (Response.make message v));
       Logged e]
      (mkWorld (stdout w') (stderr w' ++ [e])).

(** The listeners of a list, one after the other, each from the world
    the one before it left. *)
Inductive dispatched_all (py : Script) (message : Message.t)
    : list Listener.t → World → list Event → World → Prop :=
| dispatched_nil w : dispatched_all py message [] w [] w
| dispatched_cons l ls w evs w1 evs' w2 :
    dispatched py message l w evs w1 →
    dispatched_all py message ls w1 evs' w2 →
    dispatched_all py message (l :: ls) w (evs ++ evs') w2.

(** The call a listener owes a message: its function with the response,
    when its matcher answers a true value. *)
Definition owed (py : Script) (message : Message.t) (l : Listener.t)
    : option (Handler * Arg) :=
  match Matcher_match (custom_match py) (Listener.matcher l) message with
  | Ok v =>
      if truthy v then Some (Listener.func l, ArgResponse (Response.make message v))
      else None
  | Raise _ => None
  end.

(** ** The rest of the transport: [close], [receive] and the shell loop

    [run] reads the process environment and the terminal.  The
    environment is the answers of its two lookups; identifiers are opaque,
    so the value of PYBOT_SHELL_USER_ID is given as the identifier it
    stands for.  The terminal is the list of lines still to be read; the
    end of the list is the end of input, where [input] raises [EOFError].
    The prompt [input] writes is recorded on [stdout] as an entry of its
    own. *)
Module Shell.

Record Environ := mkEnviron {
  shell_user_name : option string;
  shell_user_id : option nat
}.

(** [Adapter.close] *)
Definition close : M unit := ret tt.

(** [Adapter.receive] *)
Definition receive (py : Script) (robot : Robot.t) (message : Message.t) : M unit :=
  Robot.receive py robot message.

(** [Robot.shutdown] *)
Definition shutdown : M unit := close.

(** The prompt of [input('{}> '.format(self.robot.name))]. *)
Definition prompted (robot : Robot.t) (env : Env) : Env :=
  mkEnv (mkWorld (stdout (world env) ++ [Robot.name robot +:+ "> "])
                 (stderr (world env)))
        (trace env).

(** The bare [print] of the [EOFError] branch: a statement that prints an
    empty line under Python 2, an expression without effect under
    Python 3. *)
Definition eof_print (py2 : bool) (env : Env) : Env :=
  if py2 then snd (lift_io (print "") env) else env.

(** The [while True] loop of [ShellAdapter.run], on the lines still to be
    read; it answers the lines left unread. *)
Fixpoint loop (py : Script) (py2 : bool) (robot : Robot.t) (user : User)
    (stdin : list string) (env : Env) : result unit * Env * list string :=
  let env := prompted robot env in
  match stdin with
  | [] => (Ok tt, eof_print py2 env, [])
  | text :: rest =>
      if decide (text = "quit") then (Ok tt, env, rest)
      else
        let message := Message.init (Some user) "shell" (Some text) in
        match receive py robot message env with
        | (Ok _, env') => loop py py2 robot user rest env'
        | (Raise e, env') => (Raise e, env', rest)
        end
  end.

(** [ShellAdapter.run], which is also [Robot.run]: the robot's adapter
    is the shell adapter. *)
Definition run (py : Script) (py2 : bool) (environ : Environ) (robot : Robot.t)
    (stdin : list string) (env : Env)
    : result unit * Env * Robot.t * list string :=
  let name := default "Shell" (shell_user_name environ) in
  let user_id := shell_user_id environ in
  let '(robot, connected) := Robot.emit py robot "connected" VNone in
  match connected env with
  | (Raise e, env) => (Raise e, env, robot, stdin)
  | (Ok _, env) =>
      match loop py py2 robot (mkUser user_id name) stdin env with
      | (Raise e, env, stdin) => (Raise e, env, robot, stdin)
      | (Ok _, env, stdin) =>
          let '(robot, disconnected) := Robot.emit py robot "disconnected" VNone in
          match disconnected env with
          | (Raise e, env) => (Raise e, env, robot, stdin)
          | (Ok _, env) => (fst (shutdown env), snd (shutdown env), robot, stdin)
          end
      end
  end.

End Shell.

(** ** Sequences of calls *)

(** A call of the event bus. *)
Inductive BusCall :=
| CallSubscribe (type : string) (f : Handler)
| CallUnsubscribe (type : string) (f : Handler)
| CallPublish (type : string) (data : pyval).

(** The bus after a call, whether the call returned or raised. *)
Definition bus_call (py : Script) (self : EventBus.t) (c : BusCall) : EventBus.t :=
  match c with
  | CallSubscribe type f => EventBus.subscribe self type f
  | CallUnsubscribe type f => snd (EventBus.unsubscribe self type f)
  | CallPublish type data => fst (EventBus.publish py self type data)
  end.

(** A registration line of a bot script: a decorator applied to a
    function. *)
Inductive Registration :=
| RegOn (type : string) (f : Handler)
| RegRespond (pattern : string) (f : Handler)
| RegHear (pattern : string) (f : Handler)
| RegListen (matcher : Matcher) (f : Handler).

Definition register (self : Robot.t) (reg : Registration) : result Robot.t :=
  match reg with
  | RegOn type f => Ok (fst (Robot.on self type f))
  | RegRespond pattern f =>
      match Robot.respond self pattern f with
      | Ok (robot, _) => Ok robot
      | Raise e => Raise e
      end
  | RegHear pattern f =>
      match Robot.hear self pattern f with
      | Ok (robot, _) => Ok robot
      | Raise e => Raise e
      end
  | RegListen matcher f => Ok (fst (Robot.listen self matcher f))
  end.

(** The lines of a script in turn; the first one that raises ends the
    script, and the robot stays as the lines before it left it. *)
Fixpoint register_all (self : Robot.t) (regs : list Registration)
    : result unit * Robot.t :=
  match regs with
  | [] => (Ok tt, self)
  | reg :: regs' =>
      match register self reg with
      | Ok robot => register_all robot regs'
      | Raise e => (Raise e, self)
      end
  end.

(** ** More readings of the record and of strings *)

(** The listeners tried, each with the message it was tried on. *)
Fixpoint tried_pairs (evs : list Event) : list (Listener.t * Message.t) :=
  match evs with
  | [] => []
  | Tried l m :: evs' => (l, m) :: tried_pairs evs'
  | _ :: evs' => tried_pairs evs'
  end.

(** A matcher built from the classes of the module alone. *)
Fixpoint builtin (m : Matcher) : bool :=
  match m with
  | BaseMatcher => true
  | RegexMatcher _ => true
  | DirectMessageMatcher wrapped _ => builtin wrapped
  | CustomMatcher _ => false
  end.

(** Every character of [s] is one of [chars]. *)
Fixpoint all_in (chars : string) (s : string) : bool :=
  match s with
  | EmptyString => true
  | String c s' => Str.mem c chars && all_in chars s'
  end.

(** The message the loop builds from a line. *)
Definition shell_message (user : User) (text : string) : Message.t :=
  Message.init (Some user) "shell" (Some text).

(** * Properties *)

(** ** Strings *)

Lemma split_before (sep : ascii) (s : string) :
  ∃ toks, Str.split sep s = Str.before sep s :: toks.
Proof.
  induction s as [|c s [toks IH]]; simpl; [by eexists|].
  destruct (decide (c = sep)); [by eexists|].
  rewrite IH. by eexists.
Qed.

Lemma lstrip_before (s : string) :
  Str.lstrip " " (Str.before " " s) = Str.before " " s.
Proof.
  destruct s as [|c s]; simpl; [done|].
  destruct (decide (c = " "%char)) as [->|Hc]; simpl; [done|].
  destruct (decide (c = " "%char)); [done|]. done.
Qed.

Lemma is_empty_true (s : string) : Str.is_empty s = true ↔ s = "".
Proof. destruct s; simpl; split; congruence. Qed.

(** ** Matchers *)

(** [DirectMessageMatcher.match] is its guards, then the wrapped call. *)
Lemma DirectMessageMatcher_match_check custom wrapped name message :
  Matcher_match custom (DirectMessageMatcher wrapped name) message =
  if address_check name message then Matcher_match custom wrapped message
  else Ok VNone.
Proof.
  unfold address_check. simpl.
  destruct (Message.text message) as [text|]; [|done].
  destruct (Str.is_empty text); [done|].
  destruct (Str.split " " (Str.lower text)) as [|tok0 toks]; [done|].
  by case_decide; case_bool_decide.
Qed.

(** The guards, read on the text: it is non-empty and its first token,
    stripped, is the name. *)
Lemma address_check_first_token name message :
  address_check name message =
  match Message.text message with
  | None => false
  | Some text => negb (Str.is_empty text) && bool_decide (first_token text = name)
  end.
Proof.
  unfold address_check, first_token.
  destruct (Message.text message) as [text|]; [|done].
  destruct (Str.is_empty text); [done|]. simpl.
  destruct (split_before " " (Str.lower text)) as [toks ->].
  by rewrite lstrip_before.
Qed.

Lemma compile_foo : Re.compile "foo" = Some foo_regex.
Proof. reflexivity. Qed.

Lemma match_at_foo (s : string) (pos : nat) :
  Re.match_at foo_regex s pos =
  if Str.startswith "foo" s then Some (Re.MatchObj pos (S (S (S pos))) []) else None.
Proof.
  unfold Re.match_at, foo_regex.
  destruct s as [|a [|b [|c s]]]; simpl; repeat case_decide; simplify_eq; done.
Qed.

Lemma scan_foo (s : string) (pos : nat) :
  is_Some (Re.scan foo_regex s pos) ↔ Str.contains "foo" s = true.
Proof.
  revert pos. induction s as [|c s IH]; intros pos.
  - simpl. split; [intros [m Hm]; discriminate | discriminate].
  - cbn [Re.scan Str.contains]. rewrite match_at_foo.
    destruct (Str.startswith "foo" (String c s)); [by split; eauto|].
    rewrite orb_false_l. apply IH.
Qed.

(** [search] answers the leftmost match: nothing matches at an earlier
    offset, and the answer is the anchored match at its own start. *)
Lemma scan_leftmost (r : Re.regex) (s : string) (pos : nat) (m : Re.match_obj) :
  Re.scan r s pos = Some m →
  ∃ i, Re.m_start m = pos + i ∧
       Re.match_at r (drop_str i s) (pos + i) = Some m ∧
       ∀ j, j < i → Re.match_at r (drop_str j s) (pos + j) = None.
Proof.
  revert pos. induction s as [|c s IH]; intros pos; cbn [Re.scan].
  - destruct (Re.match_at r "" pos) as [m'|] eqn:Hm; [|done].
    intros [= ->]. exists 0. rewrite Nat.add_0_r. split_and!; [|done|lia].
    unfold Re.match_at in Hm. destruct (Re.run _ _ _ _ _) as [[e cs]|]; by simplify_eq.
  - destruct (Re.match_at r (String c s) pos) as [m'|] eqn:Hm.
    + intros [= ->]. exists 0. rewrite Nat.add_0_r. split_and!; [|done|lia].
      unfold Re.match_at in Hm. destruct (Re.run _ _ _ _ _) as [[e cs]|]; by simplify_eq.
    + intros Hs. destruct (IH _ Hs) as (i & Hst & Hat & Hlt).
      exists (S i). replace (pos + S i) with (S pos + i) by lia.
      split_and!; [done|done|].
      intros [|j] Hj; [by rewrite Nat.add_0_r|].
      replace (pos + S j) with (S pos + j) by lia. apply Hlt. lia.
Qed.

(** C2, as amended.  For a message whose text does not begin with a
    space, [DirectMessageMatcher(wrapped, botName).match] passes its
    address check exactly when the lower-cased text up to its first space
    character, trailing [:], [-], [=] stripped, is the lower-cased bot
    name; it answers the wrapped matcher's result when the check passes
    and [None] otherwise, in particular for an absent or empty text.  For
    the name "Pybot" the texts "pybot: status" and "PYBOT status" pass and
    "hello pybot" does not. *)
Theorem direct_message_address_check
    (custom : nat → Message.t → result pyval) (wrapped : Matcher)
    (botName : string) (message : Message.t) :
  let dm := DirectMessageMatcher_init wrapped botName in
  let pybot := DirectMessageMatcher_init wrapped "Pybot" in
  Matcher_match custom dm message =
    (if address_check (Str.lower botName) message
     then Matcher_match custom wrapped message else Ok VNone) ∧
  (Message.text_truthy message = false →
     address_check (Str.lower botName) message = false) ∧
  (∀ text, Message.text message = Some text → text ≠ "" →
     Str.startswith " " text = false →
     (address_check (Str.lower botName) message = true ↔
      first_token text = Str.lower botName)) ∧
  address_check (Str.lower "Pybot") (Sample.msg "pybot: status") = true ∧
  address_check (Str.lower "Pybot") (Sample.msg "PYBOT status") = true ∧
  address_check (Str.lower "Pybot") (Sample.msg "hello pybot") = false ∧
  Matcher_match custom pybot (Sample.msg "hello pybot") = Ok VNone.
Proof.
  intros dm pybot. split_and!; try reflexivity.
  - apply DirectMessageMatcher_match_check.
  - unfold Message.text_truthy. rewrite address_check_first_token.
    destruct (Message.text message) as [text|]; [|done].
    by intros ->.
  - intros text Htext Hne _. rewrite address_check_first_token, Htext.
    destruct text as [|c text]; [done|]. simpl negb. rewrite andb_true_l.
    apply bool_decide_eq_true.
Qed.

(** The theorem at the text "pybot- hi" for the bot name "PyBot". *)
Lemma direct_message_address_check_witness :
  address_check (Str.lower "PyBot") (Sample.msg "pybot- hi") = true ∧
  Matcher_match (custom_match Sample.script)
    (DirectMessageMatcher_init (CustomMatcher 0) "PyBot") (Sample.msg "pybot- hi")
  = Ok (VBool true).
Proof.
  destruct (direct_message_address_check (custom_match Sample.script)
              (CustomMatcher 0) "PyBot" (Sample.msg "pybot- hi"))
    as (Hm & _ & Hiff & _).
  assert (Hc : address_check (Str.lower "PyBot") (Sample.msg "pybot- hi") = true).
  { apply (Hiff "pybot- hi"); [reflexivity | discriminate | reflexivity | reflexivity]. }
  split; [exact Hc|]. rewrite Hm, Hc. reflexivity.
Defined.

(** C2 as stated fails: with a tab after the name, or a space before it,
    the first whitespace-delimited token is the bot name, yet the address
    check fails and [match] answers [None] whatever the wrapped matcher
    says. *)
Lemma direct_message_whitespace_counterexample :
  let dm := DirectMessageMatcher_init (CustomMatcher 0) "Pybot" in
  let custom := custom_match Sample.script in
  (Spec.addressed "Pybot" (Some Sample.tab_text) = true ∧
   address_check (Str.lower "Pybot") (Sample.msg Sample.tab_text) = false ∧
   Matcher_match custom (CustomMatcher 0) (Sample.msg Sample.tab_text) = Ok (VBool true) ∧
   Matcher_match custom dm (Sample.msg Sample.tab_text) = Ok VNone) ∧
  (Spec.addressed "Pybot" (Some " pybot status") = true ∧
   address_check (Str.lower "Pybot") (Sample.msg " pybot status") = false ∧
   Matcher_match custom (CustomMatcher 0) (Sample.msg " pybot status") = Ok (VBool true) ∧
   Matcher_match custom dm (Sample.msg " pybot status") = Ok VNone).
Proof. vm_compute. by split_and!. Qed.

(** C5.  When the address check of [DirectMessageMatcher.match] passes,
    the result is what the wrapped matcher answers for the very message
    [match] was given: no part of the text is removed. *)
Theorem direct_message_delegates
    (custom : nat → Message.t → result pyval) (wrapped : Matcher)
    (botName : string) (message : Message.t) :
  address_check (Str.lower botName) message = true →
  Matcher_match custom (DirectMessageMatcher_init wrapped botName) message
  = Matcher_match custom wrapped message.
Proof.
  intros Hc. unfold DirectMessageMatcher_init.
  by rewrite DirectMessageMatcher_match_check, Hc.
Qed.

(** The wrapped pattern "^pybot" matches at offset 0 of "pybot: status":
    it was given the text with the bot's name still in front. *)
Lemma direct_message_delegates_witness :
  address_check (Str.lower "Pybot") (Sample.msg "pybot: status") = true ∧
  Matcher_match (custom_match Sample.script)
    (DirectMessageMatcher_init
       (RegexMatcher (Re.Cat Re.Bol (Re.Cat (Re.Chr "p") (Re.Chr "y")))) "Pybot")
    (Sample.msg "pybot: status")
  = Ok (VMatch (Re.MatchObj 0 2 [])).
Proof.
  split; [reflexivity|].
  rewrite (direct_message_delegates (custom_match Sample.script)
             (RegexMatcher (Re.Cat Re.Bol (Re.Cat (Re.Chr "p") (Re.Chr "y"))))
             "Pybot" (Sample.msg "pybot: status")); reflexivity.
Defined.

(** C9, as amended.  [RegexMatcher(pattern).match(message)] answers
    [None] when the text is absent or empty; for any other text it is the
    unanchored search of the compiled pattern over the text, which
    answers the leftmost match or [None].  [RegexMatcher("foo")] answers
    a true value exactly when the text contains "foo". *)
Theorem regex_matcher_match (regex : Re.regex) (message : Message.t) :
  (Message.text message = None → RegexMatcher_match regex message = VNone) ∧
  (Message.text message = Some "" → RegexMatcher_match regex message = VNone) ∧
  (∀ text, Message.text message = Some text → text ≠ "" →
     RegexMatcher_match regex message = of_search (Re.search regex text) ∧
     ∀ m, Re.search regex text = Some m →
       Re.match_at regex (drop_str (Re.m_start m) text) (Re.m_start m) = Some m ∧
       ∀ j, j < Re.m_start m → Re.match_at regex (drop_str j text) j = None) ∧
  ∃ foo, RegexMatcher_init "foo" = Ok (RegexMatcher foo) ∧
    (truthy (RegexMatcher_match foo message) = true ↔
     ∃ text, Message.text message = Some text ∧ Str.contains "foo" text = true).
Proof.
  unfold RegexMatcher_match. split_and!.
  - by intros ->.
  - by intros ->.
  - intros text -> Hne. split.
    + by destruct text.
    + intros m Hm. destruct (scan_leftmost _ _ _ _ Hm) as (i & Hi & Hat & Hlt).
      simpl in Hi. subst i. split; [exact Hat|exact Hlt].
  - exists foo_regex. split; [reflexivity|].
    destruct (Message.text message) as [text|]; [|split; [done|by intros (? & ? & ?)]].
    destruct text as [|c text]; [split; [done|by intros (? & [= <-] & ?)]|].
    simpl negb. cbn match. unfold Re.search.
    pose proof (scan_foo (String c text) 0) as Hscan.
    destruct (Re.scan foo_regex (String c text) 0) as [m|]; simpl.
    + split; [|done]. intros _. eexists; split; [done|]. apply Hscan. by eexists.
    + split; [done|]. intros (? & [= <-] & Hc). apply Hscan in Hc. by destruct Hc.
Qed.

(** The theorem at the text "a foo b". *)
Lemma regex_matcher_match_witness :
  RegexMatcher_match foo_regex (Sample.msg "a foo b")
  = of_search (Re.search foo_regex "a foo b") ∧
  Re.search foo_regex "a foo b" = Some (Re.MatchObj 2 5 []).
Proof.
  destruct (regex_matcher_match foo_regex (Sample.msg "a foo b")) as (_ & _ & H & _).
  destruct (H "a foo b") as [Heq _]; [reflexivity | discriminate |].
  split; [exact Heq | reflexivity].
Defined.

(** C9 as stated fails at the empty text: the search of "a*" over it
    answers the empty match at offset 0, and [match] answers [None]. *)
Lemma regex_matcher_empty_text_counterexample :
  Re.compile "a*" = Some (Re.Star (Re.Chr "a")) ∧
  Message.text (Sample.msg "") = Some "" ∧
  Spec.regex_match (Re.Star (Re.Chr "a")) (Sample.msg "")
  = VMatch (Re.MatchObj 0 0 []) ∧
  RegexMatcher_match (Re.Star (Re.Chr "a")) (Sample.msg "") = VNone ∧
  RegexMatcher_match (Re.Star (Re.Chr "a")) (Sample.msg "")
  ≠ Spec.regex_match (Re.Star (Re.Chr "a")) (Sample.msg "").
Proof. by split_and!. Qed.

(** C10.  A message whose text is the empty string gets [None] from
    [RegexMatcher.match] and from [DirectMessageMatcher.match], as a
    message without text does, for every compiled pattern, wrapped
    matcher and bot name; the pattern "a*", which matches the empty string,
    is no exception. *)
Theorem empty_text_is_absent_text
    (custom : nat → Message.t → result pyval) (regex : Re.regex)
    (wrapped : Matcher) (botName : string)
    (user : option User) (room : string) (id : option nat) :
  let empty := Message.make user room (Some "") id in
  let absent := Message.make user room None id in
  RegexMatcher_match regex empty = VNone ∧
  RegexMatcher_match regex absent = VNone ∧
  Matcher_match custom (RegexMatcher regex) empty = Ok VNone ∧
  Matcher_match custom (RegexMatcher regex) absent = Ok VNone ∧
  Matcher_match custom (DirectMessageMatcher_init wrapped botName) empty = Ok VNone ∧
  Matcher_match custom (DirectMessageMatcher_init wrapped botName) absent = Ok VNone ∧
  ∃ star, RegexMatcher_init "a*" = Ok (RegexMatcher star) ∧
    Re.search star "" = Some (Re.MatchObj 0 0 []) ∧
    RegexMatcher_match star empty = VNone.
Proof.
  intros empty absent. split_and!; try reflexivity.
  by exists (Re.Star (Re.Chr "a")).
Qed.

(** ** The event bus *)


Lemma calls_to_published_notin f data hs :
  f ∉ hs → calls_to f (published data hs) = 0.
Proof.
  induction hs as [|h hs IH]; simpl; [done|].
  intros Hn. apply not_elem_of_cons in Hn as [Hne Hn].
  rewrite IH by done. by case_decide.
Qed.

Lemma calls_to_published_le f data hs :
  NoDup hs → calls_to f (published data hs) ≤ 1.
Proof.
  induction 1 as [|h hs Hh Hnd IH]; simpl; [lia|].
  case_decide; [|lia]. subst h. rewrite calls_to_published_notin by done. lia.
Qed.

Lemma for_each_cons {S A} (x : A) (xs : list A) (body : A → ST S unit) (s : S) :
  for_each (x :: xs) body s =
  match body x s with
  | (Ok _, s') => for_each xs body s'
  | (Raise e, s') => (Raise e, s')
  end.
Proof. reflexivity. Qed.

Lemma for_each_app {S A} (xs ys : list A) (body : A → ST S unit) (s : S) :
  for_each (xs ++ ys) body s =
  match for_each xs body s with
  | (Ok _, s') => for_each ys body s'
  | (Raise e, s') => (Raise e, s')
  end.
Proof.
  revert s. induction xs as [|x xs IH]; intros s; simpl.
  - done.
  - unfold bind. destruct (body x s) as [[[]|e] s']; [apply IH|done].
Qed.

(** One call of a handler by [publish]. *)
Lemma invoke_data py h data env :
  invoke py h (ArgData data) env =
  (fst (call py h (ArgData data) (world env)),
   mkEnv (snd (call py h (ArgData data) (world env)))
         (trace env ++ [Called h (ArgData data)])).
Proof.
  unfold invoke, bind, log, lift_io. simpl.
  by destruct (call py h (ArgData data) (world env)).
Qed.

(** The loop of [publish]: the handlers are called from the front; it
    ends after the last one, or at the first one that raises. *)
Lemma publish_loop py data hs env :
  ∃ done rest,
    hs = done ++ rest ∧
    trace (snd (for_each hs (fun h => invoke py h (ArgData data)) env))
      = trace env ++ published data done ∧
    match fst (for_each hs (fun h => invoke py h (ArgData data)) env) with
    | Ok _ => rest = []
    | Raise e =>
        ∃ pre h mid,
          done = pre ++ [h] ∧
          for_each pre (fun h => invoke py h (ArgData data)) env = (Ok tt, mid) ∧
          fst (call py h (ArgData data) (world mid)) = Raise e
    end.
Proof.
  revert env. induction hs as [|h hs IH]; intros env.
  - exists [], []. simpl. by rewrite app_nil_r.
  - rewrite for_each_cons, invoke_data.
    destruct (call py h (ArgData data) (world env)) as [[[]|e] w'] eqn:Hcall; simpl.
    + destruct (IH (mkEnv w' (trace env ++ [Called h (ArgData data)])))
        as (done & rest & -> & Htr & Hres).
      exists (h :: done), rest. split; [done|]. split.
      * rewrite Htr. simpl. by rewrite <- app_assoc.
      * destruct (fst _) as [[]|e]; [done|].
        destruct Hres as (pre & h' & mid & -> & Hpre & Hr).
        exists (h :: pre), h', mid. split; [done|]. split; [|done].
        by rewrite for_each_cons, invoke_data, Hcall.
    + exists [h], hs. split; [done|]. split; [done|].
      exists [], h, env. by rewrite Hcall.
Qed.

Lemma registered_getitem self type :
  snd (EventBus.getitem self type) = EventBus.registered self type ∧
  EventBus._listeners (fst (EventBus.getitem self type)) !! type
    = Some (EventBus.registered self type) ∧
  ∀ type', EventBus.registered (fst (EventBus.getitem self type)) type'
           = EventBus.registered self type'.
Proof.
  unfold EventBus.getitem, EventBus.registered.
  destruct (EventBus._listeners self !! type) as [l|] eqn:Hl; simpl.
  - by rewrite Hl.
  - rewrite lookup_insert_eq. split_and!; [done..|].
    intros type'. destruct (decide (type = type')) as [<-|Hne].
    + by rewrite lookup_insert_eq, Hl.
    + by rewrite lookup_insert_ne.
Qed.

Lemma registered_subscribe self type f type' :
  EventBus.registered (EventBus.subscribe self type f) type' =
  if decide (type' = type) then
    if decide (f ∈ EventBus.registered self type) then EventBus.registered self type
    else EventBus.registered self type ++ [f]
  else EventBus.registered self type'.
Proof.
  unfold EventBus.subscribe.
  destruct (registered_getitem self type) as (Hl & Hlook & Hreg).
  destruct (EventBus.getitem self type) as [self' l]. simpl in *. subst l.
  destruct (decide (f ∈ EventBus.registered self type)).
  - rewrite Hreg. by case_decide; subst.
  - unfold EventBus.registered at 1. simpl.
    case_decide; subst.
    + by rewrite lookup_insert_eq.
    + rewrite lookup_insert_ne by done. apply Hreg.
Qed.



Lemma bus_wf_init : bus_wf EventBus.init.
Proof. intros type. unfold EventBus.registered. simpl. rewrite lookup_empty. constructor. Qed.

Lemma bus_wf_subscribe self type f :
  bus_wf self → bus_wf (EventBus.subscribe self type f).
Proof.
  intros Hwf type'. rewrite registered_subscribe.
  repeat case_decide; subst; try apply Hwf.
  apply NoDup_app. split_and!; [apply Hwf| |apply NoDup_singleton].
  intros x Hx Hx'. apply list_elem_of_singleton in Hx'. by subst.
Qed.

Lemma list_remove_notin f l : f ∉ l → EventBus.list_remove f l = None.
Proof.
  induction l as [|g l IH]; simpl; [done|].
  intros Hn. apply not_elem_of_cons in Hn as [Hne Hn].
  rewrite decide_False by done. by rewrite IH.
Qed.

Lemma filter_ne_notin (f : Handler) (l : list Handler) :
  f ∉ l → filter (fun g => g ≠ f) l = l.
Proof.
  induction l as [|g l IH]; [done|].
  intros Hn. apply not_elem_of_cons in Hn as [Hne Hn].
  rewrite filter_cons_True by done. by rewrite IH.
Qed.

Lemma list_remove_in f l :
  f ∈ l → NoDup l → EventBus.list_remove f l = Some (filter (fun g => g ≠ f) l).
Proof.
  induction l as [|g l IH]; simpl; [by intros ?%elem_of_nil|].
  intros Hin Hnd. apply NoDup_cons in Hnd as [Hg Hnd].
  destruct (decide (g = f)) as [->|Hne].
  - rewrite filter_cons_False by naive_solver. by rewrite filter_ne_notin.
  - apply elem_of_cons in Hin as [->|Hin]; [done|].
    rewrite IH by done. by rewrite filter_cons_True.
Qed.

Lemma registered_unsubscribe self type f type' :
  EventBus.registered (snd (EventBus.unsubscribe self type f)) type' =
  if decide (type' = type) then
    default (EventBus.registered self type)
            (EventBus.list_remove f (EventBus.registered self type))
  else EventBus.registered self type'.
Proof.
  unfold EventBus.unsubscribe.
  destruct (registered_getitem self type) as (Hl & Hlook & Hreg).
  destruct (EventBus.getitem self type) as [self' l]. simpl in *. subst l.
  destruct (EventBus.list_remove f (EventBus.registered self type)) as [l'|]; simpl.
  - unfold EventBus.registered at 1. simpl. case_decide; subst.
    + by rewrite lookup_insert_eq.
    + rewrite lookup_insert_ne by done. apply Hreg.
  - rewrite Hreg. by case_decide; subst.
Qed.

Lemma unsubscribe_result self type f :
  fst (EventBus.unsubscribe self type f) =
  match EventBus.list_remove f (EventBus.registered self type) with
  | Some _ => Ok tt
  | None => Raise ValueError
  end.
Proof.
  unfold EventBus.unsubscribe.
  destruct (registered_getitem self type) as (Hl & _ & _).
  destruct (EventBus.getitem self type) as [self' l]. simpl in *. subst l.
  by destruct (EventBus.list_remove f (EventBus.registered self type)).
Qed.

Lemma bus_wf_unsubscribe self type f :
  bus_wf self → bus_wf (snd (EventBus.unsubscribe self type f)).
Proof.
  intros Hwf type'. rewrite registered_unsubscribe.
  case_decide; subst; [|apply Hwf].
  destruct (decide (f ∈ EventBus.registered self type)) as [Hin|Hn].
  - rewrite list_remove_in by done. simpl. apply NoDup_filter, Hwf.
  - rewrite list_remove_notin by done. apply Hwf.
Qed.

Lemma publish_unfold py self type data :
  EventBus.publish py self type data =
  (fst (EventBus.getitem self type),
   for_each (EventBus.registered self type) (fun h => invoke py h (ArgData data))).
Proof.
  unfold EventBus.publish.
  destruct (registered_getitem self type) as (Hl & _ & _).
  destruct (EventBus.getitem self type) as [self' l]. simpl in *. by subst l.
Qed.






(** The same three handlers, evaluated. *)
Example publish_abort_example :
  let bus := EventBus.subscribe (EventBus.subscribe (EventBus.subscribe
               EventBus.init "connected" 3) "connected" 7) "connected" 4 in
  EventBus.registered bus "connected" = [3; 7; 4] ∧
  snd (EventBus.publish Sample.script bus "connected" VNone) Sample.env0 =
  (Raise (Exception "boom"),
   mkEnv (mkWorld ["event"] [])
         [Called 3 (ArgData VNone); Called 7 (ArgData VNone)]).
Proof. vm_compute. done. Qed.




(** C7.  [unsubscribe(type, f)] raises [ValueError], the error of a
    missing subscription, when [f] is not registered for [type], and
    leaves every registration as it was.  When [f] is registered it
    returns, [f] is no longer registered for [type], the other handlers
    keep their order, other event types are untouched, and a later
    [publish] for [type] does not call [f]. *)
Theorem unsubscribe_removes (py : Script) (self : EventBus.t) (type : string)
    (f : Handler) :
  (f ∉ EventBus.registered self type →
     fst (EventBus.unsubscribe self type f) = Raise ValueError ∧
     ∀ type', EventBus.registered (snd (EventBus.unsubscribe self type f)) type'
              = EventBus.registered self type') ∧
  (f ∈ EventBus.registered self type → bus_wf self →
     ∃ bus,
       EventBus.unsubscribe self type f = (Ok tt, bus) ∧
       bus_wf bus ∧
       (f ∉ EventBus.registered bus type) ∧
       EventBus.registered bus type
         = filter (fun g => g ≠ f) (EventBus.registered self type) ∧
       (∀ type', type' ≠ type →
          EventBus.registered bus type' = EventBus.registered self type') ∧
       ∀ data env,
         let bus' := fst (EventBus.publish py bus type data) in
         let out := snd (EventBus.publish py bus type data) env in
         (f ∉ EventBus.registered bus' type) ∧
         ∃ evs, trace (snd out) = trace env ++ evs ∧ calls_to f evs = 0).
Proof.
  split.
  - intros Hn. rewrite unsubscribe_result, list_remove_notin by done.
    split; [done|]. intros type'. rewrite registered_unsubscribe.
    case_decide; subst; [|done]. by rewrite list_remove_notin.
  - intros Hin Hwf.
    pose proof (unsubscribe_result self type f) as Hres.
    pose proof (registered_unsubscribe self type f) as Hreg.
    pose proof (bus_wf_unsubscribe self type f Hwf) as Hwf'.
    rewrite list_remove_in in Hres by done.
    destruct (EventBus.unsubscribe self type f) as [r bus]. simpl in *. subst r.
    exists bus.
    assert (Hty : EventBus.registered bus type
                  = filter (fun g => g ≠ f) (EventBus.registered self type)).
    { rewrite Hreg, decide_True by done. by rewrite list_remove_in. }
    assert (Hgone : f ∉ EventBus.registered bus type).
    { rewrite Hty. intros Hf. apply list_elem_of_filter in Hf as [Hne _]. done. }
    split_and!; [done..| |].
    + intros type' Hne. by rewrite Hreg, decide_False.
    + intros data env. rewrite publish_unfold. simpl. split.
      * by rewrite (proj2 (proj2 (registered_getitem bus type))).
      * destruct (publish_loop py data (EventBus.registered bus type) env)
          as (done & rest & Hp & Htr & _).
        exists (published data done). split; [done|].
        apply calls_to_published_notin. intros Hf. apply Hgone.
        rewrite Hp. apply elem_of_app. by left.
Qed.

(** Handler 4 leaves the bus that holds 3 and 4; handler 5 was never
    there. *)
Lemma unsubscribe_removes_witness :
  let self := EventBus.subscribe (EventBus.subscribe EventBus.init "connected" 3)
                "connected" 4 in
  fst (EventBus.unsubscribe self "connected" 5) = Raise ValueError ∧
  ∃ bus, EventBus.unsubscribe self "connected" 4 = (Ok tt, bus) ∧
         EventBus.registered bus "connected" = [3].
Proof.
  intros self.
  assert (Hwf : bus_wf self) by (do 2 apply bus_wf_subscribe; apply bus_wf_init).
  destruct (unsubscribe_removes Sample.script self "connected" 5) as [Hmiss _].
  destruct (unsubscribe_removes Sample.script self "connected" 4) as [_ Hhit].
  split.
  - apply Hmiss. vm_compute. intros H. by repeat (apply elem_of_cons in H as [H|H]; [discriminate|]); apply elem_of_nil in H.
  - destruct Hhit as (bus & Heq & _ & _ & Hreg & _); [|exact Hwf|].
    + vm_compute. apply elem_of_cons. right. by left.
    + exists bus. split; [exact Heq|]. rewrite Hreg. reflexivity.
Defined.

(** ** Dispatch *)

(** One round of the loop of [receive]. *)
Lemma receive_step py l message env :
  ∃ evs w',
    try_except (ListenerCall.call py l message >> ret tt) (fun e => print_exc e) env
      = (Ok tt, mkEnv w' (trace env ++ evs)) ∧
    dispatched py message l (world env) evs w'.
Proof.
  unfold try_except, ListenerCall.call, bind, log. cbn [world trace].
  destruct (Matcher_match (custom_match py) (Listener.matcher l) message)
    as [v|e] eqn:Hm.
  - destruct (truthy v) eqn:Hv; cbn [negb].
    + unfold invoke, bind, log, lift_io, ret. cbn [world trace].
      destruct (call py (Listener.func l) (ArgResponse (Response.make message v))
                  (world env)) as [[[]|e] w'] eqn:Hcall.
      * eexists _, w'. split; [by rewrite <- app_assoc|]. by eapply dispatched_returned.
      * unfold print_exc, bind, log, lift_io. cbn [world trace stdout stderr].
        eexists _, _. split; [by rewrite <- !app_assoc|].
        by eapply dispatched_raised.
    + unfold ret. eexists _, _. split; [by destruct env|].
      by eapply dispatched_no_match.
  - unfold raise, print_exc, bind, log, lift_io. cbn [world trace stdout stderr].
    eexists _, _. split; [by rewrite <- !app_assoc|].
    by eapply dispatched_matcher_raised.
Qed.

Lemma receive_loop py message ls env :
  ∃ evs w',
    for_each ls
      (fun l => try_except (ListenerCall.call py l message >> ret tt)
                           (fun e => print_exc e)) env
      = (Ok tt, mkEnv w' (trace env ++ evs)) ∧
    dispatched_all py message ls (world env) evs w'.
Proof.
  revert env. induction ls as [|l ls IH]; intros env.
  - exists [], (world env). split; [|constructor].
    simpl. unfold ret. rewrite app_nil_r. by destruct env.
  - rewrite for_each_cons.
    destruct (receive_step py l message env) as (evs & w1 & -> & Hd).
    destruct (IH (mkEnv w1 (trace env ++ evs))) as (evs' & w2 & -> & Hall).
    exists (evs ++ evs'), w2. cbn [trace]. split; [by rewrite app_assoc|].
    by econstructor.
Qed.

Lemma dispatched_tried py message l w evs w' :
  dispatched py message l w evs w' →
  tried_of evs = [l] ∧ called_of evs = option_list (owed py message l).
Proof.
  unfold owed. destruct 1 as [v w Hm Hv|e w Hm|v w w' Hm Hv Hc|v e w w' Hm Hv Hc];
    rewrite Hm, ?Hv; done.
Qed.

Lemma tried_of_app evs1 evs2 : tried_of (evs1 ++ evs2) = tried_of evs1 ++ tried_of evs2.
Proof. induction evs1 as [|[| |] evs1 IH]; simpl; by rewrite ?IH. Qed.

Lemma called_of_app evs1 evs2 : called_of (evs1 ++ evs2) = called_of evs1 ++ called_of evs2.
Proof. induction evs1 as [|[| |] evs1 IH]; simpl; by rewrite ?IH. Qed.

Lemma dispatched_all_tried py message ls w evs w' :
  dispatched_all py message ls w evs w' →
  tried_of evs = ls ∧ called_of evs = omap (owed py message) ls.
Proof.
  induction 1 as [|l ls w evs w1 evs' w2 Hd Hall [IHt IHc]]; [done|].
  destruct (dispatched_tried _ _ _ _ _ _ Hd) as [Ht Hc].
  rewrite tried_of_app, called_of_app, Ht, Hc, IHt, IHc. split; [done|].
  simpl. by destruct (owed py message l).
Qed.

(** C1.  [receive(message)] returns without raising, whatever the
    matchers and functions of the listeners do.  It tries the registered
    listeners in registration order, each from the world the one before
    it left; a listener whose matcher answers a true value has its
    function called once with the response, and an exception of a
    matcher or a function is logged where it happened, before the next
    listener is tried. *)
Theorem receive_dispatches_all (py : Script) (self : Robot.t)
    (message : Message.t) (env : Env) :
  let out := Robot.receive py self message env in
  fst out = Ok tt ∧
  ∃ evs,
    trace (snd out) = trace env ++ evs ∧
    dispatched_all py message (Robot._listeners self) (world env) evs (world (snd out)) ∧
    tried_of evs = Robot._listeners self ∧
    called_of evs = omap (owed py message) (Robot._listeners self).
Proof.
  unfold Robot.receive.
  destruct (receive_loop py message (Robot._listeners self) env)
    as (evs & w' & -> & Hall).
  split; [done|]. exists evs. split; [done|]. split; [done|].
  by eapply dispatched_all_tried.
Qed.

(** A robot named "Pybot" with three listeners: the first answers to the
    bot's name and raises, the second hears "stat", the third hears
    "bye".  The exception of the first is logged and the second still
    runs. *)
Example receive_isolation_example :
  ∃ r1 r2 r3 v1 v2 v3,
    Robot.respond (Robot.init "Pybot") "status" 7 = Ok (r1, v1) ∧
    Robot.hear r1 "stat" 3 = Ok (r2, v2) ∧
    Robot.hear r2 "bye" 4 = Ok (r3, v3) ∧
    let out := Robot.receive Sample.script r3 (Sample.msg "pybot: status") Sample.env0 in
    fst out = Ok tt ∧
    world (snd out) = mkWorld ["pybot: status"] [Exception "boom"] ∧
    called_of (trace (snd out)) =
      [(7, ArgResponse (Response.make (Sample.msg "pybot: status")
                          (VMatch (Re.MatchObj 7 13 []))));
       (3, ArgResponse (Response.make (Sample.msg "pybot: status")
                          (VMatch (Re.MatchObj 7 11 []))))].
Proof.
  do 6 eexists.
  split; [reflexivity|]. split; [reflexivity|]. split; [reflexivity|].
  cbv zeta. split; [reflexivity|]. split; reflexivity.
Qed.

(** ** Registration *)

Lemma elem_of_registered_subscribe self type f :
  f ∈ EventBus.registered (EventBus.subscribe self type f) type.
Proof.
  rewrite registered_subscribe, decide_True by done.
  case_decide; [done|]. apply elem_of_app. right. by left.
Qed.

(** C3, on the code.  The wrappers of [on], [hear] and [listen] register
    and return the function they were given; the wrapper of [respond]
    registers a listener whose matcher is the pattern behind the direct
    address check, and returns [None]: its body has no [return f]. *)
Theorem registration_wrappers (self : Robot.t) (type pattern : string)
    (matcher : Matcher) (f : Handler) :
  (snd (Robot.on self type f) = Some f ∧
   f ∈ EventBus.registered (Robot._bus (fst (Robot.on self type f))) type) ∧
  (snd (Robot.listen self matcher f) = Some f ∧
   Robot._listeners (fst (Robot.listen self matcher f))
   = Robot._listeners self ++ [Listener.make matcher f]) ∧
  match Robot.hear self pattern f with
  | Ok (robot, v) =>
      v = Some f ∧
      ∃ regex, Re.compile pattern = Some regex ∧
        Robot._listeners robot
        = Robot._listeners self ++ [Listener.make (RegexMatcher regex) f]
  | Raise e => e = ReError ∧ Re.compile pattern = None
  end ∧
  match Robot.respond self pattern f with
  | Ok (robot, v) =>
      v = None ∧
      ∃ regex, Re.compile pattern = Some regex ∧
        Robot._listeners robot
        = Robot._listeners self ++
          [Listener.make
             (DirectMessageMatcher (RegexMatcher regex) (Str.lower (Robot.name self))) f]
  | Raise e => e = ReError ∧ Re.compile pattern = None
  end ∧
  ∃ robot, Robot.respond (Robot.init "Pybot") "status" 1 = Ok (robot, None).
Proof.
  split_and!.
  - done.
  - apply elem_of_registered_subscribe.
  - done.
  - done.
  - unfold Robot.hear, RegexMatcher_init.
    destruct (Re.compile pattern) as [regex|]; [|done].
    split; [done|]. by exists regex.
  - unfold Robot.respond, RegexMatcher_init.
    destruct (Re.compile pattern) as [regex|]; [|done].
    split; [done|]. by exists regex.
  - eexists. reflexivity.
Qed.

(** ** Adapters *)

(** The instance of each class of this file is its class bound to
    itself. *)
Lemma new_bound :
  Adapter.bound Adapter.class (Adapter.new Adapter.class) = Adapter.new Adapter.class ∧
  Adapter.bound ShellAdapter.class (Adapter.new ShellAdapter.class)
  = Adapter.new ShellAdapter.class ∧
  Adapter.bound Sample.echo (Adapter.new Sample.echo) = Adapter.new Sample.echo.
Proof. by split_and!. Qed.

(** C4, as amended.  On the base [Adapter], [send], [reply], [topic] and
    [play] do nothing and [emote] is [self.send] with the same message and
    text.  The reply that sends the user's name, a colon, a space and the
    text through [self.send] is [ShellAdapter.reply]. *)
Theorem base_adapter_defaults (self : Adapter.obj) (message : Message.t)
    (text : string) (w : World) :
  Adapter.send self message text w = (Ok tt, w) ∧
  Adapter.reply self message text w = (Ok tt, w) ∧
  Adapter.topic self message text w = (Ok tt, w) ∧
  Adapter.play self message text w = (Ok tt, w) ∧
  Adapter.emote self message text = Adapter.o_send self message text ∧
  (let base := Adapter.new Adapter.class in
   Adapter.o_send base message text w = (Ok tt, w) ∧
   Adapter.o_emote base message text w = (Ok tt, w) ∧
   Adapter.o_reply base message text w = (Ok tt, w) ∧
   Adapter.o_topic base message text w = (Ok tt, w) ∧
   Adapter.o_play base message text w = (Ok tt, w)) ∧
  (∀ user, Message.user message = Some user →
     ShellAdapter.reply self message text
     = Adapter.o_send self message (user_name user +:+ ": " +:+ text)) ∧
  (∀ user, Message.user message = Some user →
     Adapter.o_reply (Adapter.new ShellAdapter.class) message text w
     = (Ok tt, mkWorld (stdout w ++ [user_name user +:+ ": " +:+ text]) (stderr w))).
Proof.
  split_and!; try reflexivity.
  - by intros base; split_and!.
  - intros user Hu. unfold ShellAdapter.reply. by rewrite Hu.
  - intros user Hu. simpl. unfold ShellAdapter.reply. by rewrite Hu.
Qed.

(** The theorem for a reply to alice on the shell adapter. *)
Lemma base_adapter_defaults_witness :
  Adapter.o_reply (Adapter.new ShellAdapter.class) (Sample.msg "hello") "hi" Sample.w0
  = (Ok tt, mkWorld ["alice: hi"] []).
Proof.
  destruct (base_adapter_defaults (Adapter.new ShellAdapter.class)
              (Sample.msg "hello") "hi" Sample.w0) as (_ & _ & _ & _ & _ & _ & _ & H).
  exact (H Sample.alice eq_refl).
Defined.

(** C4 as stated fails for the reply: on an adapter that inherits
    [reply] from the base and prints what it is asked to send, a reply to
    alice prints nothing, where a send of the text behind her name prints
    "alice: hi". *)
Lemma base_reply_counterexample :
  let self := Adapter.new Sample.echo in
  Adapter.c_reply Sample.echo = Adapter.reply ∧
  Adapter.o_reply self (Sample.msg "hello") "hi" Sample.w0 = (Ok tt, Sample.w0) ∧
  Adapter.o_send self (Sample.msg "hello") (Str.format_colon "alice" "hi") Sample.w0
  = (Ok tt, mkWorld ["alice: hi"] []) ∧
  Adapter.reply self (Sample.msg "hello") "hi" Sample.w0
  ≠ Adapter.o_send self (Sample.msg "hello") (Str.format_colon "alice" "hi") Sample.w0.
Proof. by split_and!. Qed.

(** * Further properties *)

(** ** The event bus: keys, round trips and order *)

Lemma list_remove_app_last f l :
  f ∉ l → EventBus.list_remove f (l ++ [f]) = Some l.
Proof.
  induction l as [|g l IH]; simpl; intros Hn.
  - by rewrite decide_True.
  - apply not_elem_of_cons in Hn as [Hne Hn].
    rewrite decide_False by done. by rewrite IH.
Qed.

Lemma bus_wf_getitem self type :
  bus_wf self → bus_wf (fst (EventBus.getitem self type)).
Proof.
  intros Hwf type'. rewrite (proj2 (proj2 (registered_getitem self type))). apply Hwf.
Qed.

(** X1.  Publishing an event nobody subscribed to, a type the bus has
    never seen included, returns without calling anything and leaves the
    world as it was; the dict then holds the type with an empty list, and
    no registration changes. *)
Theorem publish_no_subscribers (py : Script) (self : EventBus.t) (type : string)
    (data : pyval) (env : Env) :
  EventBus.registered self type = [] →
  snd (EventBus.publish py self type data) env = (Ok tt, env) ∧
  EventBus._listeners (fst (EventBus.publish py self type data)) !! type = Some [] ∧
  ∀ type', EventBus.registered (fst (EventBus.publish py self type data)) type'
           = EventBus.registered self type'.
Proof.
  intros Hnone. rewrite publish_unfold. cbn [fst snd].
  destruct (registered_getitem self type) as (_ & Hlook & Hreg).
  rewrite Hnone in *. done.
Qed.

Lemma publish_no_subscribers_witness :
  EventBus._listeners EventBus.init !! "connected" = None ∧
  snd (EventBus.publish Sample.script EventBus.init "connected" VNone) Sample.env0
  = (Ok tt, Sample.env0) ∧
  EventBus._listeners (fst (EventBus.publish Sample.script EventBus.init "connected" VNone))
    !! "connected" = Some [].
Proof.
  split; [reflexivity|].
  destruct (publish_no_subscribers Sample.script EventBus.init "connected" VNone
              Sample.env0 eq_refl) as (H1 & H2 & _).
  split; [exact H1 | exact H2].
Defined.

(** X2.  Subscribing a handler that was not registered and unsubscribing
    it again returns, and every event type has the handlers it had, in
    the order they had. *)
Theorem subscribe_unsubscribe_round_trip (self : EventBus.t) (type : string)
    (f : Handler) :
  f ∉ EventBus.registered self type →
  ∃ bus,
    EventBus.unsubscribe (EventBus.subscribe self type f) type f = (Ok tt, bus) ∧
    ∀ type', EventBus.registered bus type' = EventBus.registered self type'.
Proof.
  intros Hn.
  pose proof (unsubscribe_result (EventBus.subscribe self type f) type f) as Hres.
  pose proof (registered_unsubscribe (EventBus.subscribe self type f) type f) as Hreg.
  assert (Hsub : EventBus.registered (EventBus.subscribe self type f) type
                 = EventBus.registered self type ++ [f]).
  { rewrite registered_subscribe, decide_True by done. by rewrite decide_False. }
  rewrite Hsub, list_remove_app_last in Hres by done.
  destruct (EventBus.unsubscribe (EventBus.subscribe self type f) type f) as [r bus].
  cbn [fst snd] in *. subst r. exists bus. split; [done|].
  intros type'. rewrite Hreg. case_decide; subst.
  - by rewrite Hsub, list_remove_app_last.
  - rewrite registered_subscribe. by rewrite decide_False.
Qed.

Lemma subscribe_unsubscribe_round_trip_witness :
  let self := EventBus.subscribe EventBus.init "connected" 3 in
  ∃ bus,
    EventBus.unsubscribe (EventBus.subscribe self "connected" 4) "connected" 4
    = (Ok tt, bus) ∧
    EventBus.registered bus "connected" = [3].
Proof.
  intros self.
  destruct (subscribe_unsubscribe_round_trip self "connected" 4) as (bus & Heq & Hreg).
  - vm_compute. intros H. apply elem_of_cons in H as [H|H]; [discriminate|].
    by apply elem_of_nil in H.
  - exists bus. split; [exact Heq|]. rewrite Hreg. reflexivity.
Defined.

(** X3.  Unsubscribing a registered handler and subscribing it again
    moves it behind the others: it is called last from then on. *)
Theorem unsubscribe_subscribe_moves_last (self : EventBus.t) (type : string)
    (f : Handler) :
  bus_wf self →
  f ∈ EventBus.registered self type →
  EventBus.registered
    (EventBus.subscribe (snd (EventBus.unsubscribe self type f)) type f) type
  = filter (fun g => g ≠ f) (EventBus.registered self type) ++ [f].
Proof.
  intros Hwf Hin.
  assert (Hun : EventBus.registered (snd (EventBus.unsubscribe self type f)) type
                = filter (fun g => g ≠ f) (EventBus.registered self type)).
  { rewrite registered_unsubscribe. case_decide; [|done].
    by rewrite list_remove_in. }
  rewrite registered_subscribe. case_decide; [|done]. rewrite Hun.
  rewrite decide_False; [done|].
  intros Hf. by apply list_elem_of_filter in Hf as [Hne _].
Qed.

Lemma unsubscribe_subscribe_moves_last_witness :
  let self := EventBus.subscribe (EventBus.subscribe (EventBus.subscribe
                EventBus.init "connected" 3) "connected" 4) "connected" 5 in
  EventBus.registered self "connected" = [3; 4; 5] ∧
  EventBus.registered
    (EventBus.subscribe (snd (EventBus.unsubscribe self "connected" 3)) "connected" 3)
    "connected" = [4; 5; 3].
Proof.
  intros self. split; [reflexivity|].
  rewrite (unsubscribe_subscribe_moves_last self "connected" 3).
  - reflexivity.
  - do 3 apply bus_wf_subscribe. apply bus_wf_init.
  - vm_compute. by left.
Defined.

(** X4.  Whatever calls of [subscribe], [unsubscribe] and [publish] a
    new bus receives, returning or raising, no handler is ever registered
    twice for one event type. *)
Theorem bus_never_duplicates (py : Script) (calls : list BusCall) :
  bus_wf (foldl (bus_call py) EventBus.init calls).
Proof.
  assert (H : ∀ self, bus_wf self → bus_wf (foldl (bus_call py) self calls)).
  { induction calls as [|c calls IH]; intros self Hwf; [done|].
    simpl. apply IH. destruct c as [type f|type f|type data]; simpl.
    - by apply bus_wf_subscribe.
    - by apply bus_wf_unsubscribe.
    - rewrite publish_unfold. simpl. by apply bus_wf_getitem. }
  apply H, bus_wf_init.
Qed.

(** X5.  Handlers are registered in the order of their subscription:
    subscribing distinct handlers, none of them registered yet, appends
    them in that order behind the ones already there. *)
Theorem subscribe_keeps_order (self : EventBus.t) (type : string)
    (fs : list Handler) :
  NoDup fs →
  (∀ f, f ∈ fs → f ∉ EventBus.registered self type) →
  EventBus.registered (foldl (fun b f => EventBus.subscribe b type f) self fs) type
  = EventBus.registered self type ++ fs.
Proof.
  revert self. induction fs as [|f fs IH]; intros self Hnd Hnew; simpl.
  - by rewrite app_nil_r.
  - apply NoDup_cons in Hnd as [Hf Hnd].
    assert (Hsub : EventBus.registered (EventBus.subscribe self type f) type
                   = EventBus.registered self type ++ [f]).
    { rewrite registered_subscribe, decide_True by done.
      rewrite decide_False; [done|]. apply Hnew. by left. }
    rewrite IH; [by rewrite Hsub, <- app_assoc|done|].
    intros g Hg. rewrite Hsub. intros Hin. apply elem_of_app in Hin as [Hin|Hin].
    + apply (Hnew g); [by right|done].
    + apply list_elem_of_singleton in Hin. by subst.
Qed.

Lemma subscribe_keeps_order_witness :
  EventBus.registered
    (foldl (fun b f => EventBus.subscribe b "connected" f) EventBus.init [5; 3; 4])
    "connected" = [5; 3; 4].
Proof.
  rewrite (subscribe_keeps_order EventBus.init "connected" [5; 3; 4]).
  - reflexivity.
  - repeat (apply NoDup_cons; split;
            [intros H; repeat (apply elem_of_cons in H as [H|H]; [discriminate|]);
             by apply elem_of_nil in H|]).
    apply NoDup_nil. done.
  - intros f _. vm_compute. apply not_elem_of_nil.
Defined.

(** ** The robot: registration and dispatch together *)

Lemma emit_unfold py self type data :
  snd (Robot.emit py self type data)
  = for_each (EventBus.registered (Robot._bus self) type)
             (fun h => invoke py h (ArgData data)) ∧
  Robot._bus (fst (Robot.emit py self type data))
  = fst (EventBus.getitem (Robot._bus self) type) ∧
  Robot._listeners (fst (Robot.emit py self type data)) = Robot._listeners self ∧
  Robot.name (fst (Robot.emit py self type data)) = Robot.name self.
Proof.
  unfold Robot.emit. rewrite publish_unfold. done.
Qed.

Lemma registered_init type : EventBus.registered EventBus.init type = [].
Proof. unfold EventBus.registered. simpl. by rewrite lookup_empty. Qed.

(** X6.  On a new robot, registering [f] with [on(type)] and emitting
    [type] with some data calls [f] once with that data, and [emit]
    returns or raises as [f] does; emitting any other event type calls
    nothing. *)
Theorem on_then_emit (py : Script) (name type : string) (f : Handler)
    (data : pyval) (env : Env) :
  let robot := fst (Robot.on (Robot.init name) type f) in
  snd (Robot.emit py robot type data) env
  = (fst (call py f (ArgData data) (world env)),
     mkEnv (snd (call py f (ArgData data) (world env)))
           (trace env ++ [Called f (ArgData data)])) ∧
  ∀ type', type' ≠ type → snd (Robot.emit py robot type' data) env = (Ok tt, env).
Proof.
  intros robot. split.
  - rewrite (proj1 (emit_unfold py robot type data)). subst robot. simpl.
    rewrite registered_subscribe, decide_True by done.
    rewrite registered_init, decide_False by apply not_elem_of_nil.
    simpl. unfold bind. rewrite invoke_data.
    by destruct (call py f (ArgData data) (world env)) as [[[]|e] w'].
  - intros type' Hne. rewrite (proj1 (emit_unfold py robot type' data)).
    subst robot. simpl. rewrite registered_subscribe, decide_False by done.
    by rewrite registered_init.
Qed.

Lemma on_then_emit_witness :
  snd (Robot.emit Sample.script (fst (Robot.on (Robot.init "Pybot") "connected" 3))
         "disconnected" VNone) Sample.env0 = (Ok tt, Sample.env0).
Proof.
  destruct (on_then_emit Sample.script "Pybot" "connected" 3 VNone Sample.env0)
    as [_ H].
  apply H. discriminate.
Defined.

Lemma register_step self reg robot :
  register self reg = Ok robot →
  Robot.name robot = Robot.name self ∧
  Robot.adapter robot = Robot.adapter self ∧
  (∃ added, Robot._listeners robot = Robot._listeners self ++ added ∧
            List.length added ≤ 1) ∧
  (∀ type f, f ∈ EventBus.registered (Robot._bus self) type →
             f ∈ EventBus.registered (Robot._bus robot) type) ∧
  (bus_wf (Robot._bus self) → bus_wf (Robot._bus robot)).
Proof.
  destruct reg as [type f|pattern f|pattern f|matcher f]; simpl.
  - intros [= <-]. simpl. split_and!; [done..| | |].
    + exists []. rewrite app_nil_r. split; [done|simpl; lia].
    + intros type' g Hg. rewrite registered_subscribe.
      repeat case_decide; subst; try done. apply elem_of_app. by left.
    + apply bus_wf_subscribe.
  - unfold Robot.respond. destruct (RegexMatcher_init pattern) as [m|e]; [|done].
    intros [= <-]. simpl. split_and!; [done..| |done|done].
    eexists [_]. split; [done|]. simpl. lia.
  - unfold Robot.hear. destruct (RegexMatcher_init pattern) as [m|e]; [|done].
    intros [= <-]. simpl. split_and!; [done..| |done|done].
    eexists [_]. split; [done|]. simpl. lia.
  - intros [= <-]. simpl. split_and!; [done..| |done|done].
    eexists [_]. split; [done|]. simpl. lia.
Qed.

Lemma register_all_keeps (self : Robot.t) (regs : list Registration) :
  let robot := snd (register_all self regs) in
  Robot.name robot = Robot.name self ∧
  Robot.adapter robot = Robot.adapter self ∧
  (∃ added, Robot._listeners robot = Robot._listeners self ++ added ∧
            List.length added ≤ List.length regs) ∧
  (∀ type f, f ∈ EventBus.registered (Robot._bus self) type →
             f ∈ EventBus.registered (Robot._bus robot) type) ∧
  (bus_wf (Robot._bus self) → bus_wf (Robot._bus robot)).
Proof.
  revert self. induction regs as [|reg regs IH]; intros self; simpl.
  - split_and!; [done..| |done|done]. exists []. rewrite app_nil_r.
    split; [done|simpl; lia].
  - destruct (register self reg) as [robot|e] eqn:Hreg; simpl.
    + destruct (register_step _ _ _ Hreg) as (Hn & Ha & (add1 & Hl & Hlen) & Hb & Hwf).
      destruct (IH robot) as (Hn' & Ha' & (add2 & Hl' & Hlen') & Hb' & Hwf').
      split_and!; [congruence|congruence| | |].
      * exists (add1 ++ add2). rewrite Hl', Hl, <- app_assoc. split; [done|].
        rewrite length_app. lia.
      * intros type f Hf. by apply Hb', Hb.
      * intros H. by apply Hwf', Hwf.
    + split_and!; [done..| |done|done]. exists []. rewrite app_nil_r. split; [done|].
      simpl. lia.
Qed.

(** X7.  Registration only adds.  After any lines of a bot script, the
    robot has the name and the adapter it had, its listeners are the old
    ones in their order followed by at most one new listener per line,
    every lifecycle handler that was subscribed still is, and no handler
    is subscribed twice if none was. *)
Theorem registration_only_appends (self : Robot.t) (regs : list Registration) :
  let robot := snd (register_all self regs) in
  Robot.name robot = Robot.name self ∧
  Robot.adapter robot = Robot.adapter self ∧
  (∃ added, Robot._listeners robot = Robot._listeners self ++ added ∧
            List.length added ≤ List.length regs) ∧
  (∀ type f, f ∈ EventBus.registered (Robot._bus self) type →
             f ∈ EventBus.registered (Robot._bus robot) type) ∧
  (bus_wf (Robot._bus self) → bus_wf (Robot._bus robot)).
Proof. apply register_all_keeps. Qed.

(** X8.  Adding a listener does not change what the listeners already
    there do with a message: [receive] runs them as before, and then
    tries the new listener from the world they left. *)
Theorem new_listener_runs_last (py : Script) (self : Robot.t) (matcher : Matcher)
    (f : Handler) (message : Message.t) (env : Env) :
  let robot := Robot._add_listener self matcher f in
  ∃ env1 evs w,
    Robot.receive py self message env = (Ok tt, env1) ∧
    Robot.receive py robot message env = (Ok tt, mkEnv w (trace env1 ++ evs)) ∧
    dispatched py message (Listener.make matcher f) (world env1) evs w.
Proof.
  intros robot. subst robot. unfold Robot.receive, Robot._add_listener. simpl.
  rewrite for_each_app.
  destruct (receive_loop py message (Robot._listeners self) env)
    as (evs0 & w0 & -> & _).
  rewrite for_each_cons.
  destruct (receive_step py (Listener.make matcher f) message
              (mkEnv w0 (trace env ++ evs0))) as (evs & w & -> & Hd).
  eexists _, evs, w. split; [done|]. split; [|done]. done.
Qed.

(** X9.  A message that no listener's matcher answers with a true value
    has no effect: every listener is tried, no function is called,
    nothing is logged and the world is as it was. *)
Theorem unmatched_message_is_silent (py : Script) (self : Robot.t)
    (message : Message.t) (env : Env) :
  (∀ l, l ∈ Robot._listeners self →
     ∃ v, Matcher_match (custom_match py) (Listener.matcher l) message = Ok v ∧
          truthy v = false) →
  Robot.receive py self message env
  = (Ok tt, mkEnv (world env)
              (trace env ++ map (fun l => Tried l message) (Robot._listeners self))).
Proof.
  unfold Robot.receive. generalize (Robot._listeners self) as ls.
  intros ls. revert env. induction ls as [|l ls IH]; intros env Hno.
  - simpl. unfold ret. rewrite app_nil_r. by destruct env.
  - rewrite for_each_cons.
    destruct (Hno l) as (v & Hm & Hv); [by left|].
    unfold try_except at 1, ListenerCall.call, bind, log. cbn [world trace].
    rewrite Hm, Hv. cbn [negb]. unfold ret at 1 2.
    rewrite IH by (intros l' Hl'; apply Hno; by right).
    simpl. by rewrite <- app_assoc.
Qed.

Lemma unmatched_message_is_silent_witness :
  ∃ robot v,
    Robot.hear (Robot.init "Pybot") "hi" 3 = Ok (robot, v) ∧
    Robot.receive Sample.script robot (Sample.msg "bye") Sample.env0
    = (Ok tt, mkEnv Sample.w0
                [Tried (Listener.make (RegexMatcher (Re.Cat (Re.Chr "h") (Re.Chr "i"))) 3)
                       (Sample.msg "bye")]).
Proof.
  eexists _, _. split; [reflexivity|].
  rewrite unmatched_message_is_silent; [reflexivity|].
  intros l Hl. apply list_elem_of_singleton in Hl. subst l.
  exists VNone. split; reflexivity.
Defined.

(** X10.  The matchers of the module itself never raise, and what they
    answer is [None] or a match object, whatever the matchers of the
    script would do: a listener registered by [hear] or [respond] can only
    log an exception of its function. *)
Theorem builtin_matchers_never_raise (m : Matcher) (message : Message.t) :
  builtin m = true →
  ∃ v, (v = VNone ∨ ∃ mo, v = VMatch mo) ∧
       ∀ custom, Matcher_match custom m message = Ok v.
Proof.
  induction m as [|regex|wrapped IH name|n]; intros Hb.
  - exists VNone. split; [by left|done].
  - exists (RegexMatcher_match regex message). split; [|done].
    unfold RegexMatcher_match. destruct (Message.text message) as [text|]; [|by left].
    destruct (negb _); [|by left].
    destruct (Re.search regex text) as [mo|]; [right; by eexists|by left].
  - destruct (IH Hb) as (v & Hv & Hm).
    exists (if address_check name message then v else VNone). split.
    + by destruct (address_check name message); [|left].
    + intros custom. rewrite DirectMessageMatcher_match_check, Hm.
      by destruct (address_check name message).
  - done.
Qed.

Lemma builtin_matchers_never_raise_witness :
  ∃ v, ∀ custom,
    Matcher_match custom (DirectMessageMatcher_init (RegexMatcher foo_regex) "Pybot")
      (Sample.msg "pybot: foo") = Ok v.
Proof.
  destruct (builtin_matchers_never_raise
              (DirectMessageMatcher_init (RegexMatcher foo_regex) "Pybot")
              (Sample.msg "pybot: foo") eq_refl) as (v & _ & H).
  exists v. exact H.
Defined.

(** X11.  A listener called on its own does not catch anything: it
    answers [False] without touching the world when the matcher's answer
    is not true; otherwise it calls its function once and answers [True]
    when the function returns, and raises what the function raises, with
    nothing logged. *)
Theorem listener_call_outcome (py : Script) (l : Listener.t)
    (message : Message.t) (env : Env) (v : pyval) :
  Matcher_match (custom_match py) (Listener.matcher l) message = Ok v →
  let arg := ArgResponse (Response.make message v) in
  ListenerCall.call py l message env =
  if truthy v then
    (match fst (call py (Listener.func l) arg (world env)) with
     | Ok _ => Ok true
     | Raise e => Raise e
     end,
     mkEnv (snd (call py (Listener.func l) arg (world env)))
           (trace env ++ [Tried l message; Called (Listener.func l) arg]))
  else (Ok false, mkEnv (world env) (trace env ++ [Tried l message])).
Proof.
  intros Hm arg. unfold ListenerCall.call, bind at 1, log. cbn [world trace].
  rewrite Hm. destruct (truthy v); cbn [negb]; [|done].
  unfold bind, invoke, bind, log, lift_io, ret. cbn [world trace]. fold arg.
  destruct (call py (Listener.func l) arg (world env)) as [[[]|e] w']; simpl;
    by rewrite <- app_assoc.
Qed.

Lemma listener_call_outcome_witness :
  ListenerCall.call Sample.script (Listener.make (CustomMatcher 0) 7)
    (Sample.msg "x") Sample.env0
  = (Raise (Exception "boom"),
     mkEnv Sample.w0
       [Tried (Listener.make (CustomMatcher 0) 7) (Sample.msg "x");
        Called 7 (ArgResponse (Response.make (Sample.msg "x") (VBool true)))]).
Proof.
  rewrite (listener_call_outcome Sample.script (Listener.make (CustomMatcher 0) 7)
             (Sample.msg "x") Sample.env0 (VBool true) eq_refl).
  reflexivity.
Defined.

(** ** Talking back through the shell adapter *)

Lemma shell_adapter_kept name regs :
  Robot.adapter (snd (register_all (Robot.init name) regs))
  = Adapter.new ShellAdapter.class.
Proof. by rewrite (proj1 (proj2 (register_all_keeps (Robot.init name) regs))). Qed.

(** X12.  On a robot as [Robot(name)] builds it, after any registrations,
    a response's [send] prints the text, [emote] prints it behind "* ",
    [topic] prints nothing, and [reply] prints it behind the name of the
    message's user and ": ", or raises [AttributeError], printing
    nothing, when the message has no user. *)
Theorem response_on_shell (name : string) (regs : list Registration)
    (response : Response.t) (text : string) (w : World) :
  let robot := snd (register_all (Robot.init name) regs) in
  let printed line := (Ok tt, mkWorld (stdout w ++ [line]) (stderr w)) in
  ResponseOps.send robot response text w = printed text ∧
  ResponseOps.emote robot response text w = printed ("* " +:+ text) ∧
  ResponseOps.topic robot response text w = (Ok tt, w) ∧
  ResponseOps.reply robot response text w =
    match Message.user (Response.message response) with
    | Some user => printed (user_name user +:+ ": " +:+ text)
    | None => (Raise AttributeError, w)
    end.
Proof.
  intros robot printed.
  unfold ResponseOps.send, ResponseOps.emote, ResponseOps.topic, ResponseOps.reply.
  subst robot. rewrite shell_adapter_kept. split_and!; try reflexivity.
  simpl. unfold ShellAdapter.reply.
  by destruct (Message.user (Response.message response)).
Qed.

(** X13.  [Robot.send(room, text)] prints the text whatever the room;
    [Robot.reply(user, room, text)] prints it behind the user's name, and
    raises [AttributeError] without printing when the user is [None]. *)
Theorem robot_send_reply (name : string) (regs : list Registration)
    (user : option User) (room text : string) (w : World) :
  let robot := snd (register_all (Robot.init name) regs) in
  Robot.send robot room text w = (Ok tt, mkWorld (stdout w ++ [text]) (stderr w)) ∧
  Robot.reply robot user room text w =
    match user with
    | Some u => (Ok tt, mkWorld (stdout w ++ [user_name u +:+ ": " +:+ text]) (stderr w))
    | None => (Raise AttributeError, w)
    end.
Proof.
  intros robot. unfold Robot.send, Robot.reply. subst robot.
  rewrite shell_adapter_kept. split; [reflexivity|]. by destruct user.
Qed.

(** ** Who is addressed *)

Lemma str_app_cons d a b : String d a +:+ b = String d (a +:+ b).
Proof. reflexivity. Qed.

Lemma str_app_nil b : "" +:+ b = b.
Proof. reflexivity. Qed.

Lemma lower_app a b : Str.lower (a +:+ b) = Str.lower a +:+ Str.lower b.
Proof.
  induction a as [|c a IH]; [done|].
  rewrite str_app_cons. simpl. by rewrite IH.
Qed.

Lemma str_app_assoc a b c : a +:+ b +:+ c = (a +:+ b) +:+ c.
Proof.
  induction a as [|d a IH]; [done|].
  rewrite !str_app_cons. by rewrite IH.
Qed.

Lemma mem_app c a b : Str.mem c (a +:+ b) = Str.mem c a || Str.mem c b.
Proof.
  induction a as [|d a IH]; [done|].
  rewrite str_app_cons. simpl. by case_decide.
Qed.

Lemma is_empty_app a b : Str.is_empty (a +:+ b) = Str.is_empty a && Str.is_empty b.
Proof. by destruct a. Qed.

Lemma before_app_sep sep a r :
  Str.mem sep a = false → Str.before sep (a +:+ String sep r) = a.
Proof.
  induction a as [|c a IH].
  - intros _. rewrite str_app_nil. simpl. by rewrite decide_True.
  - rewrite str_app_cons. simpl.
    destruct (decide (sep = c)) as [->|Hne]; [done|]. intros Ha.
    rewrite decide_False by done. by rewrite IH.
Qed.

Lemma mem_before sep s : Str.mem sep (Str.before sep s) = false.
Proof.
  induction s as [|c s IH]; simpl; [done|].
  destruct (decide (c = sep)) as [->|Hne]; simpl; [done|].
  by rewrite decide_False.
Qed.

Lemma rstrip_all_in chars b : all_in chars b = true → Str.rstrip chars b = "".
Proof.
  induction b as [|c b IH]; simpl; [done|].
  intros [Hc Hb]%andb_true_iff. by rewrite IH, Hc.
Qed.

Lemma rstrip_app_all_in chars a b :
  all_in chars b = true → Str.rstrip chars (a +:+ b) = Str.rstrip chars a.
Proof.
  intros Hb. induction a as [|c a IH].
  - rewrite str_app_nil. by apply rstrip_all_in.
  - rewrite str_app_cons. simpl. by rewrite IH.
Qed.

Lemma rstrip_idem chars s :
  Str.rstrip chars (Str.rstrip chars s) = Str.rstrip chars s.
Proof.
  induction s as [|c s IH]; simpl; [done|].
  destruct (Str.is_empty (Str.rstrip chars s) && Str.mem c chars) eqn:E; [done|].
  simpl. by rewrite IH, E.
Qed.

Lemma mem_rstrip c chars s :
  Str.mem c (Str.rstrip chars s) = true → Str.mem c s = true.
Proof.
  induction s as [|d s IH]; simpl; [done|].
  destruct (Str.is_empty (Str.rstrip chars s) && Str.mem d chars); simpl; [done|].
  by case_decide.
Qed.

Lemma separators_lower seps :
  all_in ":-=" seps = true →
  Str.lower seps = seps ∧ all_in " :-=" seps = true ∧ Str.mem " " seps = false.
Proof.
  induction seps as [|c seps IH]; simpl; [done|].
  intros [Hc Hs]%andb_true_iff. destruct (IH Hs) as (Hl & Ha & Hm).
  rewrite Hl, Ha, Hm.
  repeat case_decide; subst; try done.
Qed.

(** X14.  A text that begins with the bot's name in any letter case,
    then any run of [:], [-] and [=], then a space, passes the address
    check and goes to the wrapped matcher, provided the name has no space
    in it and does not end in a character the check strips. *)
Theorem addressed_with_separators
    (custom : nat → Message.t → result pyval) (wrapped : Matcher)
    (name typed seps rest : string)
    (user : option User) (room : string) (id : option nat) :
  Str.lower typed = Str.lower name →
  Str.mem " " (Str.lower name) = false →
  Str.rstrip " :-=" (Str.lower name) = Str.lower name →
  all_in ":-=" seps = true →
  let message := Message.make user room (Some (typed +:+ seps +:+ String " " rest)) id in
  address_check (Str.lower name) message = true ∧
  Matcher_match custom (DirectMessageMatcher_init wrapped name) message
  = Matcher_match custom wrapped message.
Proof.
  intros Htyped Hspace Hstrip Hseps message.
  destruct (separators_lower seps Hseps) as (Hl & Ha & Hm).
  assert (Hc : address_check (Str.lower name) message = true).
  { rewrite address_check_first_token. subst message. cbn [Message.text].
    rewrite !is_empty_app. cbn [Str.is_empty]. rewrite !andb_false_r. simpl negb.
    rewrite andb_true_l. apply bool_decide_eq_true. unfold first_token.
    rewrite str_app_assoc, lower_app. simpl Str.lower.
    change (String (Str.lower_char " ") (Str.lower rest))
      with (String " " (Str.lower rest)).
    rewrite before_app_sep.
    - rewrite lower_app, Hl, rstrip_app_all_in by done. by rewrite Htyped.
    - by rewrite lower_app, mem_app, Htyped, Hspace, Hl, Hm. }
  split; [done|]. unfold DirectMessageMatcher_init.
  by rewrite DirectMessageMatcher_match_check, Hc.
Qed.

Lemma addressed_with_separators_witness :
  Matcher_match (custom_match Sample.script)
    (DirectMessageMatcher_init (CustomMatcher 0) "Pybot") (Sample.msg "PyBoT:=- hi")
  = Ok (VBool true).
Proof.
  destruct (addressed_with_separators (custom_match Sample.script) (CustomMatcher 0)
              "Pybot" "PyBoT" ":=-" "hi" (Some Sample.alice) "room" None
              eq_refl eq_refl eq_refl eq_refl) as [_ H].
  exact H.
Defined.

(** X15.  A bot whose name has a space in it, or ends in a space, [:],
    [-] or [=], is never addressed: [DirectMessageMatcher] answers [None]
    to every message, so no listener registered by [respond] ever runs. *)
Theorem unaddressable_names
    (custom : nat → Message.t → result pyval) (wrapped : Matcher)
    (name : string) (message : Message.t) :
  Str.mem " " (Str.lower name) = true ∨
  Str.rstrip " :-=" (Str.lower name) ≠ Str.lower name →
  Matcher_match custom (DirectMessageMatcher_init wrapped name) message = Ok VNone.
Proof.
  intros Hname. unfold DirectMessageMatcher_init.
  rewrite DirectMessageMatcher_match_check, address_check_first_token.
  destruct (Message.text message) as [text|]; [|done].
  destruct (Str.is_empty text); [done|]. simpl.
  case_bool_decide as Heq; [|done]. exfalso. unfold first_token in Heq.
  destruct Hname as [Hsp|Hst].
  - rewrite <- Heq in Hsp. apply mem_rstrip in Hsp. by rewrite mem_before in Hsp.
  - apply Hst. rewrite <- Heq. apply rstrip_idem.
Qed.

Lemma unaddressable_names_witness :
  Matcher_match (custom_match Sample.script)
    (DirectMessageMatcher_init (CustomMatcher 0) "my bot") (Sample.msg "my bot hi")
  = Ok VNone ∧
  Matcher_match (custom_match Sample.script)
    (DirectMessageMatcher_init (CustomMatcher 0) "bot:") (Sample.msg "bot: hi")
  = Ok VNone.
Proof.
  split.
  - apply unaddressable_names. left. reflexivity.
  - apply unaddressable_names. right. discriminate.
Defined.

(** ** The shell loop *)

Lemma tried_pairs_app evs1 evs2 :
  tried_pairs (evs1 ++ evs2) = tried_pairs evs1 ++ tried_pairs evs2.
Proof. induction evs1 as [|[| |] evs1 IH]; simpl; by rewrite ?IH. Qed.

Lemma dispatched_all_pairs py message ls w evs w' :
  dispatched_all py message ls w evs w' →
  tried_pairs evs = map (fun l => (l, message)) ls.
Proof.
  induction 1 as [|l ls w evs w1 evs' w2 Hd Hall IH]; [done|].
  rewrite tried_pairs_app, IH. by destruct Hd.
Qed.

(** What [receive] leaves, for the loop: it returns, and its events are
    those of its listeners. *)
Lemma receive_events py robot message env :
  ∃ env' evs,
    Robot.receive py robot message env = (Ok tt, env') ∧
    trace env' = trace env ++ evs ∧
    tried_pairs evs = map (fun l => (l, message)) (Robot._listeners robot) ∧
    called_of evs = omap (owed py message) (Robot._listeners robot).
Proof.
  unfold Robot.receive.
  destruct (receive_loop py message (Robot._listeners robot) env)
    as (evs & w' & -> & Hall).
  eexists _, evs. split; [done|]. split; [done|]. split.
  - by eapply dispatched_all_pairs.
  - by eapply dispatched_all_tried.
Qed.

Lemma trace_prompted robot env : trace (Shell.prompted robot env) = trace env.
Proof. done. Qed.

Lemma trace_eof_print py2 env : trace (Shell.eof_print py2 env) = trace env.
Proof. by destruct py2. Qed.

Lemma loop_events py py2 robot user lines tail env :
  "quit" ∉ lines →
  tail = [] ∨ (∃ rest, tail = "quit" :: rest) →
  ∃ env' evs,
    Shell.loop py py2 robot user (lines ++ tail) env = (Ok tt, env', drop 1 tail) ∧
    trace env' = trace env ++ evs ∧
    tried_pairs evs =
      List.concat (map (fun text => map (fun l => (l, shell_message user text))
                                   (Robot._listeners robot)) lines) ∧
    called_of evs =
      List.concat (map (fun text => omap (owed py (shell_message user text))
                                    (Robot._listeners robot)) lines).
Proof.
  intros Hq Htail. revert env. induction lines as [|text lines IH]; intros env.
  - exists (match tail with
            | [] => Shell.eof_print py2 (Shell.prompted robot env)
            | _ => Shell.prompted robot env
            end), [].
    rewrite app_nil_r. destruct Htail as [->|[rest ->]]; simpl.
    + by rewrite trace_eof_print.
    + done.
  - apply not_elem_of_cons in Hq as [Hne Hq].
    cbn [app Shell.loop]. rewrite decide_False by done.
    unfold Shell.receive. fold (shell_message user text).
    destruct (receive_events py robot (shell_message user text)
                (Shell.prompted robot env)) as (env1 & evs1 & -> & Htr1 & Hp1 & Hc1).
    destruct (IH Hq env1) as (env' & evs & -> & Htr & Hp & Hc).
    exists env', (evs1 ++ evs). split; [done|]. split_and!.
    + rewrite Htr, Htr1, trace_prompted. by rewrite app_assoc.
    + rewrite tried_pairs_app, Hp1, Hp. done.
    + rewrite called_of_app, Hc1, Hc. done.
Qed.


(** X16.  The loop of the shell adapter reads lines up to the first
    "quit" or the end of input and never raises, whatever the listeners
    do.  Each line before that point is made a message of the shell user
    in room "shell" and goes through every listener in registration
    order, line after line; the lines behind "quit" stay unread. *)
Theorem shell_loop_reads_until_quit (py : Script) (py2 : bool) (robot : Robot.t)
    (user : User) (lines tail : list string) (env : Env) :
  "quit" ∉ lines →
  tail = [] ∨ (∃ rest, tail = "quit" :: rest) →
  ∃ env' evs,
    Shell.loop py py2 robot user (lines ++ tail) env = (Ok tt, env', drop 1 tail) ∧
    trace env' = trace env ++ evs ∧
    tried_pairs evs =
      List.concat (map (fun text => map (fun l => (l, shell_message user text))
                                   (Robot._listeners robot)) lines) ∧
    called_of evs =
      List.concat (map (fun text => omap (owed py (shell_message user text))
                                    (Robot._listeners robot)) lines).
Proof. apply loop_events. Qed.

Lemma shell_loop_reads_until_quit_witness :
  let robot := Robot._add_listener (Robot.init "Pybot")
                 (RegexMatcher (Re.Cat (Re.Chr "h") (Re.Chr "i"))) 7 in
  ∃ env',
    Shell.loop Sample.script true robot Sample.alice
      (["hi there"; "bye"] ++ ["quit"; "hi again"]) Sample.env0
    = (Ok tt, env', ["hi again"]).
Proof.
  intros robot.
  destruct (shell_loop_reads_until_quit Sample.script true robot
              Sample.alice ["hi there"; "bye"] ["quit"; "hi again"] Sample.env0)
    as (env' & evs & Heq & _).
  - intros H. repeat (apply elem_of_cons in H as [H|H]; [discriminate|]).
    by apply elem_of_nil in H.
  - right. by eexists.
  - exists env'. exact Heq.
Defined.



Lemma emit_result py self type data env :
  Robot.emit py self type data
  = (fst (Robot.emit py self type data), snd (Robot.emit py self type data)) ∧
  snd (Robot.emit py self type data) env
  = for_each (EventBus.registered (Robot._bus self) type)
             (fun h => invoke py h (ArgData data)) env ∧
  (∀ type', EventBus.registered (Robot._bus (fst (Robot.emit py self type data))) type'
            = EventBus.registered (Robot._bus self) type').
Proof.
  destruct (emit_unfold py self type data) as (Hm & Hb & _).
  split; [by destruct (Robot.emit py self type data)|]. split; [by rewrite Hm|].
  intros type'. rewrite Hb. apply registered_getitem.
Qed.



(** X18.  When the first handler subscribed to "connected" raises, [run]
    raises the same exception at once: no prompt is written, no line is
    read, no listener is tried and "disconnected" is not emitted. *)
Theorem run_stops_when_connected_raises (py : Script) (py2 : bool)
    (environ : Shell.Environ) (robot : Robot.t) (stdin : list string) (env : Env)
    (h : Handler) (hs : list Handler) (e : exn) :
  EventBus.registered (Robot._bus robot) "connected" = h :: hs →
  fst (call py h (ArgData VNone) (world env)) = Raise e →
  ∃ robot',
    Shell.run py py2 environ robot stdin env
    = (Raise e,
       mkEnv (snd (call py h (ArgData VNone) (world env)))
             (trace env ++ [Called h (ArgData VNone)]),
       robot', stdin).
Proof.
  intros Hc Hraise. unfold Shell.run.
  destruct (emit_result py robot "connected" VNone env) as (Hpair & Hrun & _).
  rewrite Hpair, Hrun, Hc, for_each_cons, invoke_data, Hraise. by eexists.
Qed.

Lemma run_stops_when_connected_raises_witness :
  ∃ robot',
    Shell.run Sample.script false (Shell.mkEnviron None None)
      (fst (Robot.on (Robot.init "Pybot") "connected" 7)) ["hi"; "quit"] Sample.env0
    = (Raise (Exception "boom"), mkEnv Sample.w0 [Called 7 (ArgData VNone)],
       robot', ["hi"; "quit"]).
Proof.
  destruct (run_stops_when_connected_raises Sample.script false
              (Shell.mkEnviron None None)
              (fst (Robot.on (Robot.init "Pybot") "connected" 7)) ["hi"; "quit"]
              Sample.env0 7 [] (Exception "boom") eq_refl eq_refl) as [robot' H].
  exists robot'. exact H.
Defined.



(** ** What wrapping and repeating do *)

(** X20.  [DirectMessageMatcher] only filters.  Whatever true value it
    answers is the value the wrapped matcher answers for the same
    message, and whenever it raises the wrapped matcher raised; so a
    listener registered by [respond] runs only on messages on which a
    listener registered by [hear] with the same pattern runs too, with
    the same match. *)
Theorem direct_message_only_filters
    (custom : nat → Message.t → result pyval) (wrapped : Matcher)
    (name : string) (message : Message.t) :
  (∀ v, Matcher_match custom (DirectMessageMatcher_init wrapped name) message = Ok v →
        truthy v = true → Matcher_match custom wrapped message = Ok v) ∧
  (∀ e, Matcher_match custom (DirectMessageMatcher_init wrapped name) message = Raise e →
        Matcher_match custom wrapped message = Raise e).
Proof.
  unfold DirectMessageMatcher_init. rewrite DirectMessageMatcher_match_check.
  destruct (address_check (Str.lower name) message); split; try done.
  by intros v [= <-].
Qed.

Lemma direct_message_only_filters_witness :
  Matcher_match (custom_match Sample.script) (RegexMatcher foo_regex)
    (Sample.msg "pybot: foo") = Ok (VMatch (Re.MatchObj 7 10 [])).
Proof.
  destruct (direct_message_only_filters (custom_match Sample.script)
              (RegexMatcher foo_regex) "Pybot" (Sample.msg "pybot: foo")) as [H _].
  apply H; reflexivity.
Defined.

(** X21.  Listeners are not deduplicated as lifecycle handlers are:
    registering the same matcher and function twice makes two listeners,
    and a message the matcher answers with a true value calls the
    function twice, after the calls of the listeners that were there. *)
Theorem listeners_are_not_deduplicated (py : Script) (self : Robot.t)
    (matcher : Matcher) (f : Handler) (message : Message.t) (env : Env) :
  let l := Listener.make matcher f in
  let robot := fst (Robot.listen (fst (Robot.listen self matcher f)) matcher f) in
  Robot._listeners robot = Robot._listeners self ++ [l; l] ∧
  ∃ env' evs,
    Robot.receive py robot message env = (Ok tt, env') ∧
    trace env' = trace env ++ evs ∧
    called_of evs =
      omap (owed py message) (Robot._listeners self)
      ++ option_list (owed py message l) ++ option_list (owed py message l).
Proof.
  intros l robot.
  assert (Hls : Robot._listeners robot = Robot._listeners self ++ [l; l]).
  { subst robot. simpl. by rewrite <- app_assoc. }
  split; [done|].
  destruct (receive_events py robot message env) as (env' & evs & Hr & Htr & _ & Hc).
  exists env', evs. split; [done|]. split; [done|].
  rewrite Hc, Hls, omap_app. f_equal. simpl.
  by destruct (owed py message l).
Qed.
